(** * Magnetic spiral structure generator: model and verification

    Shallow embedding of [spiral-3d-v4-xsf-claude.py].

    Numbers.  Python [int] values (grid extents, loop indices, site
    coordinates) are [Z].  Python / NumPy floating-point values (wave vector,
    moments, phases, angles, scale) are idealised as the real numbers [R] of
    the Standard Library: [np.cos], [np.sin], [np.sqrt], [np.arccos] and
    [np.pi] are [cos], [sin], [sqrt], [acos] and [PI].  IEEE-754 rounding,
    overflow, NaN and signed zeros are outside this model; the module
    [Binary64] evaluates the arithmetic of the angle computation in binary64
    itself, to show where the two differ.

    Containers.  A three-element Python list indexed with [0], [1], [2] is a
    [vec3]; the growing result lists are Coq lists extended at the end, as
    [list.append] does. *)

From Stdlib Require Import String Ascii DecimalString.
From Stdlib Require Import ZArith List FinFun Reals Lra Lia Bool.
From Stdlib Require PrimFloat FloatOps SpecFloat.
Import ListNotations.

Set Implicit Arguments.

(** ** Python data *)

(** [v[0]], [v[1]], [v[2]] of a three-element list. *)
Record vec3 (A : Type) : Type := Vec3 { at0 : A; at1 : A; at2 : A }.

Arguments Vec3 {A} _ _ _.

Definition vec3_list {A : Type} (v : vec3 A) : list A := [at0 v; at1 v; at2 v].

(** [range(n)] for a Python int [n]: empty when [n <= 0]. *)
Definition range (n : Z) : list Z := map Z.of_nat (seq 0 (Z.to_nat n)).

(** ** Lattice generator *)

Module Generator.

Local Open Scope R_scope.

(** The four variables the triple loop updates. *)
Record loop_state : Type := LoopState {
  positions : list (vec3 Z);
  magnetic_moments : list (vec3 R);
  angles : list R;
  num : nat
}.

Definition initial_state : loop_state :=
  {| positions := []; magnetic_moments := []; angles := []; num := 0 |}.

(** [np.clip(x, lo, hi)], that is [minimum(maximum(x, lo), hi)]. *)
Definition clip (x lo hi : R) : R := Rmin (Rmax x lo) hi.

(** The builtin [sum] over a generator: starts at 0 and adds left to right. *)
Definition py_sum (l : list R) : R := fold_left Rplus l 0.

(** Element 0 of the moments list.  The loop reads it only after an append,
    so the default is never returned (see [first_moment_app]). *)
Definition first_moment (moments : list (vec3 R)) : vec3 R :=
  nth 0 moments (Vec3 0 0 0).

(** Lines 48-63: the angle of the current moment to the first one. *)
Definition angle_deg (n : nat) (mx my mz : R) (moments : list (vec3 R)) : R :=
  if Nat.eqb n 0 then 0
  else
    let dot_product :=
      mx * at0 (first_moment moments) +
      my * at1 (first_moment moments) +
      mz * at2 (first_moment moments) in
    let mag_current := sqrt (mx ^ 2 + my ^ 2 + mz ^ 2) in
    let mag_first :=
      sqrt (py_sum (map (fun m => m ^ 2) (vec3_list (first_moment moments)))) in
    if Req_dec_T (mag_current * mag_first) 0 then 0
    else
      let cos_angle := dot_product / (mag_current * mag_first) in
      let cos_angle := clip cos_angle (-1) 1 in
      acos cos_angle * 180 / PI.

(** Lines 33-66: the body of the innermost loop at site [(i, j, k)]. *)
Definition loop_body (q_vector initial_moment : vec3 R)
    (st : loop_state) (i j k : Z) : loop_state :=
  let positions' := positions st ++ [Vec3 i j k] in
  let phase :=
    (at0 q_vector * IZR i + at1 q_vector * IZR j + at2 q_vector * IZR k)
    * 2 * PI in
  let mx := at0 initial_moment * cos phase - at1 initial_moment * sin phase in
  let my := at0 initial_moment * sin phase + at1 initial_moment * cos phase in
  let mz := at2 initial_moment in
  let moments' := magnetic_moments st ++ [Vec3 mx my mz] in
  let a := angle_deg (num st) mx my mz moments' in
  {| positions := positions';
     magnetic_moments := moments';
     angles := angles st ++ [a];
     num := S (num st) |}.

(** Lines 10-68.  [atoms_in_spiral] is accepted and not used, as in the
    source; Python puts no type on it. *)
Definition generate_spiral_structure {A : Type} (atoms_in_spiral : A)
    (R_max : vec3 Z) (q_vector initial_moment : vec3 R)
    : list (vec3 Z) * list (vec3 R) * list R :=
  let st :=
    fold_left (fun st i =>
      fold_left (fun st j =>
        fold_left (fun st k => loop_body q_vector initial_moment st i j k)
                  (range (at2 R_max)) st)
        (range (at1 R_max)) st)
      (range (at0 R_max)) initial_state in
  (positions st, magnetic_moments st, angles st).

End Generator.

(** ** Structure serializer *)

Module Serializer.

Local Open Scope string_scope.

(** The newline character of ["\n"]. *)
Definition nl : string := String (ascii_of_nat 10) EmptyString.

(** [str(n)] for a non-negative int. *)
Definition str_of_N (n : N) : string := NilEmpty.string_of_uint (N.to_uint n).

Definition str_of_nat (n : nat) : string := str_of_N (N.of_nat n).

Fixpoint repeat_char (c : ascii) (n : nat) : string :=
  match n with
  | O => EmptyString
  | S n' => String c (repeat_char c n')
  end.

(** Right-alignment in a field of [width] characters, the default for
    numbers; a longer text is left as it is. *)
Definition pad_left (c : ascii) (width : nat) (s : string) : string :=
  repeat_char c (width - String.length s) ++ s.

(** Rounding to the nearest integer, ties to the even one. *)
Definition round_half_even (x : R) : Z :=
  let n := Int_part x in
  let f := (x - IZR n)%R in
  if Rlt_dec f (1 / 2) then n
  else if Rlt_dec (1 / 2) f then (n + 1)%Z
  else if Z.even n then n else (n + 1)%Z.

(** The digits a fixed-point conversion with [prec] decimals shows for [x]:
    [|x| * 10^prec] rounded, as an integer. *)
Definition fixed_digits (prec : nat) (x : R) : Z :=
  round_half_even (Rabs x * 10 ^ prec)%R.

(** The text of [fixed_digits] with the decimal point put back. *)
Definition fixed_text (prec : nat) (d : Z) : string :=
  let ip := Z.to_N (d / 10 ^ Z.of_nat prec) in
  let fp := Z.to_N (d mod 10 ^ Z.of_nat prec) in
  match prec with
  | O => str_of_N ip
  | _ => str_of_N ip ++ "." ++ pad_left "0"%char prec (str_of_N fp)
  end.

(** The format specification [{x:W.Pf}]: sign, fixed-point digits,
    right-aligned with spaces in [width] characters. *)
Definition format_f (width prec : nat) (x : R) : string :=
  let body := fixed_text prec (fixed_digits prec x) in
  pad_left " "%char width
    (if Rlt_dec x 0 then "-" ++ body else body).

(** The open file: the texts written so far, one per [f.write] call. *)
Definition file : Type := list string.

Definition write (f : file) (s : string) : file := (f ++ [s])%list.

(** What the file holds when it is closed. *)
Definition file_text (f : file) : string := String.concat "" f.

(** Line 115 and line 116: a triple multiplied by [scale], component-wise. *)
Definition scaled (v : vec3 R) (scale : R) : vec3 R :=
  Vec3 (at0 v * scale)%R (at1 v * scale)%R (at2 v * scale)%R.

(** Lines 119-120: the record of one site. *)
Definition record_line (p m : vec3 R) : string :=
  "26  " ++ format_f 8 4 (at0 p) ++ "  " ++ format_f 8 4 (at1 p) ++ "  "
         ++ format_f 8 4 (at2 p) ++ "  "
  ++ format_f 8 4 (at0 m) ++ "  " ++ format_f 8 4 (at1 m) ++ "  "
  ++ format_f 8 4 (at2 m) ++ nl.

(** Lines 98-122 of [create_xsf_file]: the writes to the opened file.  The
    path computation and the console messages around them do not reach the
    file and are left out.  Ints multiplied by [scale] enter as reals. *)
Definition create_xsf_file (positions magnetic_moments : list (vec3 R))
    (R_max : vec3 Z) (scale : R) : file :=
  let f : file := [] in
  let f := write f
    ("# XSF file generated for magnetic spiral visualization" ++ nl) in
  let f := write f
    ("# Can be opened in VESTA to visualize magnetic moments" ++ nl) in
  let f := write f ("CRYSTAL" ++ nl) in
  let f := write f ("PRIMVEC" ++ nl) in
  let f := write f
    (format_f 6 1 (IZR (at0 R_max) * scale) ++ "  0.0  0.0" ++ nl) in
  let f := write f
    ("  0.0  " ++ format_f 6 1 (IZR (at1 R_max) * scale) ++ "  0.0" ++ nl) in
  let f := write f
    ("  0.0  0.0  " ++ format_f 6 1 (IZR (at2 R_max) * scale) ++ nl) in
  let f := write f ("PRIMCOORD" ++ nl) in
  let f := write f (str_of_nat (List.length positions) ++ " 1" ++ nl) in
  let f :=
    fold_left (fun f pm =>
                 let p := scaled (fst pm) scale in
                 let m := scaled (snd pm) scale in
                 write f (record_line p m))
              (combine positions magnetic_moments) f in
  write f nl.

(** A site of the generator as the serializer reads it. *)
Definition as_reals (p : vec3 Z) : vec3 R :=
  Vec3 (IZR (at0 p)) (IZR (at1 p)) (IZR (at2 p)).

End Serializer.

(** ** Reference definitions used by the statements *)

Module Spec.

Local Open Scope R_scope.

(** The grid sites in row-major order: [i] outermost, [k] innermost. *)
Definition row_major (R_max : vec3 Z) : list (vec3 Z) :=
  flat_map (fun i =>
    flat_map (fun j => map (fun k => Vec3 i j k) (range (at2 R_max)))
             (range (at1 R_max)))
    (range (at0 R_max)).

(** The rotation of [m0] about the z axis by [phase], counter-clockwise, as
    the specification words it. *)
Definition rotate_z (m0 : vec3 R) (phase : R) : vec3 R :=
  Vec3 (at0 m0 * cos phase - at1 m0 * sin phase)
       (at0 m0 * sin phase + at1 m0 * cos phase)
       (at2 m0).

(** The phase of the specification, [2 pi (q . r)]. *)
Definition spec_phase (q : vec3 R) (p : vec3 Z) : R :=
  2 * PI * (at0 q * IZR (at0 p) + at1 q * IZR (at1 p) + at2 q * IZR (at2 p)).

(** Euclidean norm. *)
Definition norm (v : vec3 R) : R :=
  sqrt (at0 v * at0 v + at1 v * at1 v + at2 v * at2 v).

(** [arccos] of a cosine clamped to [-1, 1], in degrees. *)
Definition is_clamped_arccos_deg (a : R) : Prop :=
  exists c, -1 <= c <= 1 /\ a = acos c * 180 / PI.

(** The three lists of a returned tuple. *)
Definition out_positions (r : list (vec3 Z) * list (vec3 R) * list R) :
  list (vec3 Z) := fst (fst r).

Definition out_moments (r : list (vec3 Z) * list (vec3 R) * list R) :
  list (vec3 R) := snd (fst r).

Definition out_angles (r : list (vec3 Z) * list (vec3 R) * list R) :
  list R := snd r.

(** The guard of line 58 for a moment [m] against the stored list. *)
Definition zero_magnitude_guard (moments : list (vec3 R)) (m : vec3 R) : Prop :=
  sqrt (at0 m ^ 2 + at1 m ^ 2 + at2 m ^ 2) *
  sqrt (Generator.py_sum
          (map (fun c => c ^ 2) (vec3_list (Generator.first_moment moments))))
  = 0.

(** The values [create_xsf_file] hands to the fixed-point conversion: the
    three cell dimensions and, per site, the position and the moment. *)
Definition cell_values (R_max : vec3 Z) (scale : R) : vec3 R :=
  Vec3 (IZR (at0 R_max) * scale) (IZR (at1 R_max) * scale)
       (IZR (at2 R_max) * scale).

Definition site_values (positions magnetic_moments : list (vec3 R))
    (scale : R) : list (vec3 R * vec3 R) :=
  map (fun pm => (Serializer.scaled (fst pm) scale,
                  Serializer.scaled (snd pm) scale))
      (combine positions magnetic_moments).

(** Multiplication of every component by [s]. *)
Definition times (s : R) (v : vec3 R) : vec3 R :=
  Vec3 (s * at0 v) (s * at1 v) (s * at2 v).

(** The document that shows a count, a cell and a list of site values. *)
Definition render (count : nat) (cell : vec3 R)
    (sites : list (vec3 R * vec3 R)) : Serializer.file :=
  [ ("# XSF file generated for magnetic spiral visualization"
       ++ Serializer.nl)%string;
    ("# Can be opened in VESTA to visualize magnetic moments"
       ++ Serializer.nl)%string;
    ("CRYSTAL" ++ Serializer.nl)%string;
    ("PRIMVEC" ++ Serializer.nl)%string;
    (Serializer.format_f 6 1 (at0 cell) ++ "  0.0  0.0"
       ++ Serializer.nl)%string;
    ("  0.0  " ++ Serializer.format_f 6 1 (at1 cell) ++ "  0.0"
       ++ Serializer.nl)%string;
    ("  0.0  0.0  " ++ Serializer.format_f 6 1 (at2 cell)
       ++ Serializer.nl)%string;
    ("PRIMCOORD" ++ Serializer.nl)%string;
    (Serializer.str_of_nat count ++ " 1" ++ Serializer.nl)%string ]
  ++ map (fun r => Serializer.record_line (fst r) (snd r)) sites
  ++ [Serializer.nl].

(** The number a fixed-point numeral with [prec] decimals denotes when it
    was written for [x]. *)
Definition written (prec : nat) (x : R) : R :=
  (if Rlt_dec x 0 then -1 else 1)
  * IZR (Serializer.fixed_digits prec x) / 10 ^ prec.

(** The writes after the count line, without the closing blank line. *)
Definition data_records (f : Serializer.file) : list string :=
  removelast (skipn 9 f).

(** The lines of a text: the runs of characters that a newline ends, and
    what follows the last newline when that is not empty. *)
Fixpoint lines_from (cur : string) (s : string) : list string :=
  match s with
  | EmptyString =>
      match cur with EmptyString => [] | _ => [cur] end
  | String c rest =>
      if Ascii.eqb c (ascii_of_nat 10)
      then cur :: lines_from EmptyString rest
      else lines_from (cur ++ String c EmptyString)%string rest
  end.

Definition lines (s : string) : list string := lines_from EmptyString s.

End Spec.

(** ** The loop as one pass over the site list *)

Module Loop.

Import Generator.
Local Open Scope R_scope.

(** The moment the loop body stores at a site (lines 36-45). *)
Definition site_moment (q m0 : vec3 R) (p : vec3 Z) : vec3 R :=
  let phase :=
    (at0 q * IZR (at0 p) + at1 q * IZR (at1 p) + at2 q * IZR (at2 p))
    * 2 * PI in
  Vec3 (at0 m0 * cos phase - at1 m0 * sin phase)
       (at0 m0 * sin phase + at1 m0 * cos phase)
       (at2 m0).

(** The angle the loop body stores at a site after the first, given the
    first moment (lines 51-63). *)
Definition site_angle (first m : vec3 R) : R :=
  angle_deg 1 (at0 m) (at1 m) (at2 m) [first].

(** The loop body on a site triple. *)
Definition step (q m0 : vec3 R) (st : loop_state) (p : vec3 Z) : loop_state :=
  loop_body q m0 st (at0 p) (at1 p) (at2 p).

(** The angles of a run that starts with empty lists. *)
Definition run_angles (q m0 : vec3 R) (l : list (vec3 Z)) : list R :=
  match l with
  | [] => []
  | p0 :: rest =>
      0 :: map (fun p => site_angle (site_moment q m0 p0) (site_moment q m0 p))
               rest
  end.

End Loop.

(** ** Console reporter *)

Module Reporter.

Local Open Scope string_scope.

(** The format specification [{n:Wd}] of an int: sign, decimal digits,
    right-aligned with spaces in [width] characters. *)
Definition format_d (width : nat) (n : Z) : string :=
  Serializer.pad_left " "%char width
    (if (n <? 0)%Z then "-" ++ Serializer.str_of_N (Z.abs_N n)
     else Serializer.str_of_N (Z.to_N n)).

(** Standard output: one text per [print] call, with the newline [print]
    puts after it. *)
Definition console : Type := list string.

Definition print (out : console) (s : string) : console :=
  (out ++ [(s ++ Serializer.nl)%string])%list.

(** The characters that reached standard output. *)
Definition console_text (out : console) : string := String.concat "" out.

(** Lines 78-80: the row of one site. *)
Definition row (pos : vec3 Z) (mom : vec3 R) (angle : R) : string :=
  format_d 2 (at0 pos) ++ " " ++ format_d 2 (at1 pos) ++ " "
    ++ format_d 2 (at2 pos) ++ " | "
  ++ Serializer.format_f 7 3 (at0 mom) ++ " "
    ++ Serializer.format_f 7 3 (at1 mom) ++ " "
    ++ Serializer.format_f 7 3 (at2 mom) ++ " | "
  ++ Serializer.format_f 8 3 angle.

(** Lines 71-80.  The index of [enumerate] is not used by the loop body. *)
Definition print_structure_info (positions : list (vec3 Z))
    (magnetic_moments : list (vec3 R)) (angles : list R) : console :=
  let out : console := [] in
  let out := print out
    ("Generated " ++ Serializer.str_of_nat (List.length positions)
       ++ " atomic positions") in
  let out := print out
    (Serializer.nl
       ++ "Position (i,j,k) | Magnetic Moment (mx,my,mz) | Angle (deg)") in
  let out := print out (Serializer.repeat_char "-"%char 65) in
  fold_left (fun out pma =>
               print out (row (fst pma) (fst (snd pma)) (snd (snd pma))))
            (combine positions (combine magnetic_moments angles)) out.

End Reporter.

(** ** Driver *)

Module Driver.

Local Open Scope R_scope.

(** Line 140: the wave vector as a function of [atoms_in_spiral].  Python
    raises [ZeroDivisionError] at 0; the statements below take it positive. *)
Definition spiral_vector (atoms_in_spiral : Z) : vec3 R :=
  Vec3 0
       (0.5 - 0.5 * (1 / IZR atoms_in_spiral))
       (0.5 - 0.5 * (1 / IZR atoms_in_spiral)).

(** Line 148: the supercell as a function of [atoms_in_spiral]. *)
Definition supercell (atoms_in_spiral : Z) : vec3 Z :=
  Vec3 atoms_in_spiral (atoms_in_spiral * 2)%Z (atoms_in_spiral * 2)%Z.

(** Lines 137-160 with [atoms_in_spiral] as a parameter: the structure, what
    [print_structure_info] prints and what [create_xsf_file] writes.  The
    three messages that show [q], [m_1] and [R_max] with [repr], and the
    messages of [create_xsf_file], are left out. *)
Definition main_with (atoms_in_spiral : Z)
    : (list (vec3 Z) * list (vec3 R) * list R)
      * Reporter.console * Serializer.file :=
  let q := spiral_vector atoms_in_spiral in
  let m_1 := Vec3 1 0 0 in
  let R_max := supercell atoms_in_spiral in
  let r := Generator.generate_spiral_structure atoms_in_spiral R_max q m_1 in
  (r,
   Reporter.print_structure_info (fst (fst r)) (snd (fst r)) (snd r),
   Serializer.create_xsf_file (map Serializer.as_reals (fst (fst r)))
                              (snd (fst r)) R_max 3).

(** [main()]: line 137 fixes [atoms_in_spiral = 3]. *)
Definition main := main_with 3.

End Driver.

(** ** The angle computation in binary64 *)

Module Binary64.

Import PrimFloat FloatOps SpecFloat.
Local Open Scope float_scope.

(** [np.pi], the double nearest to pi. *)
Definition pi : float := 0x1.921fb54442d18p+1.

(** Line 36 on doubles. *)
Definition phase (q_vector : vec3 float) (i j k : float) : float :=
  (at0 q_vector * i + at1 q_vector * j + at2 q_vector * k) * 2 * pi.

(** Lines 39-43 at a site whose phase is 0.0, where [np.cos] returns 1.0 and
    [np.sin] returns 0.0. *)
Definition moment_at_phase_zero (initial_moment : vec3 float) : vec3 float :=
  Vec3 (at0 initial_moment * 1 - at1 initial_moment * 0)
       (at0 initial_moment * 0 + at1 initial_moment * 1)
       (at2 initial_moment).

(** [np.clip(x, lo, hi)] on doubles: [minimum(maximum(x, lo), hi)]. *)
Definition clip (x lo hi : float) : float :=
  let y := if ltb x lo then lo else x in
  if ltb hi y then hi else y.

(** Lines 51-62 on doubles, for the current moment [m] and the first moment
    [first]: the clamped cosine handed to [np.arccos], or [None] when the
    zero test of line 58 holds.  A square [x ** 2] is the product [x * x],
    and [sum] starts at 0. *)
Definition cos_angle (m first : vec3 float) : option float :=
  let dot_product :=
    at0 m * at0 first + at1 m * at1 first + at2 m * at2 first in
  let mag_current := sqrt (at0 m * at0 m + at1 m * at1 m + at2 m * at2 m) in
  let mag_first :=
    sqrt (0 + at0 first * at0 first + at1 first * at1 first
          + at2 first * at2 first) in
  if eqb (mag_current * mag_first) 0 then None
  else Some (clip (dot_product / (mag_current * mag_first)) (-1) 1).

(** The real number a finite double stands for. *)
Definition value (x : float) : option R :=
  match Prim2SF x with
  | S754_zero _ => Some 0%R
  | S754_finite s m e =>
      let a := if (e <? 0)%Z then (IZR (Zpos m) / IZR (2 ^ (- e)))%R
               else IZR (Zpos m * 2 ^ e) in
      Some (if s then (- a)%R else a)
  | _ => None
  end.

End Binary64.

(** ** Reference definitions for the further properties *)

Module Text.

(** No newline character occurs in the text. *)
Fixpoint newline_free (s : string) : bool :=
  match s with
  | EmptyString => true
  | String c rest =>
      negb (Ascii.eqb c (ascii_of_nat 10)) && newline_free rest
  end.

(** A write that is one line: newline-free text, then the newline. *)
Definition is_line (w : string) : Prop :=
  exists body, w = (body ++ Serializer.nl)%string /\ newline_free body = true.

(** [q . p] for a wave vector and a site. *)
Definition dot_site (q : vec3 R) (p : vec3 Z) : R :=
  (at0 q * IZR (at0 p) + at1 q * IZR (at1 p) + at2 q * IZR (at2 p))%R.

(** The angle, in degrees, that the rotation formula gives between the
    moment at phase [phase] and the initial moment [m0]. *)
Definition rotation_angle_deg (m0 : vec3 R) (phase : R) : R :=
  (acos (((at0 m0 * at0 m0 + at1 m0 * at1 m0) * cos phase + at2 m0 * at2 m0)
         / (at0 m0 * at0 m0 + at1 m0 * at1 m0 + at2 m0 * at2 m0))
   * 180 / PI)%R.

End Text.

Section LoopFacts.

Import Generator Spec Loop.
Local Open Scope R_scope.

Variables q m0 : vec3 R.

Lemma fold_left_flat_map (A B C : Type) (f : A -> C -> A) (g : B -> list C)
    (l : list B) (a : A) :
  fold_left f (flat_map g l) a = fold_left (fun a x => fold_left f (g x) a) l a.
Proof.
  revert a; induction l as [|x l IH]; intro a; simpl; [reflexivity|].
  now rewrite fold_left_app, IH.
Qed.

Lemma fold_left_map (A B C : Type) (f : A -> C -> A) (g : B -> C)
    (l : list B) (a : A) :
  fold_left f (map g l) a = fold_left (fun a x => f a (g x)) l a.
Proof.
  revert a; induction l as [|x l IH]; intro a; simpl; [reflexivity|].
  apply IH.
Qed.

Lemma fold_left_ext_eq (A B : Type) (f g : A -> B -> A) (l : list B) (a : A) :
  (forall a x, f a x = g a x) -> fold_left f l a = fold_left g l a.
Proof.
  intro H; revert a; induction l as [|x l IH]; intro a; simpl; [reflexivity|].
  now rewrite H, IH.
Qed.

(** The three nested loops visit [row_major R_max] from left to right. *)
Lemma loops_as_one_pass (R_max : vec3 Z) (st : loop_state) :
  fold_left (fun st i =>
      fold_left (fun st j =>
        fold_left (fun st k => loop_body q m0 st i j k)
                  (range (at2 R_max)) st)
        (range (at1 R_max)) st)
      (range (at0 R_max)) st
  = fold_left (step q m0) (row_major R_max) st.
Proof.
  unfold row_major. rewrite fold_left_flat_map.
  apply fold_left_ext_eq; intros a i.
  rewrite fold_left_flat_map.
  apply fold_left_ext_eq; intros b j.
  now rewrite fold_left_map.
Qed.

(** The read of element 0 after an append to a non-empty list. *)
Lemma first_moment_app (f m : vec3 R) (ms : list (vec3 R)) :
  first_moment ((f :: ms) ++ [m]) = f.
Proof. reflexivity. Qed.

Lemma step_first (p : vec3 Z) :
  step q m0 initial_state p =
  {| positions := [p]; magnetic_moments := [site_moment q m0 p];
     angles := [0]; num := 1 |}.
Proof. destruct p; reflexivity. Qed.

Lemma step_later (st : loop_state) (f : vec3 R) (ms : list (vec3 R))
    (n : nat) (p : vec3 Z) :
  magnetic_moments st = f :: ms -> num st = S n ->
  step q m0 st p =
  {| positions := positions st ++ [p];
     magnetic_moments := magnetic_moments st ++ [site_moment q m0 p];
     angles := angles st ++ [site_angle f (site_moment q m0 p)];
     num := S (S n) |}.
Proof.
  intros Hm Hn. destruct p as [i j k].
  unfold step, loop_body. rewrite Hn, Hm. reflexivity.
Qed.

(** Once a first moment is stored, every further site appends its position,
    its moment and its angle to that first moment. *)
Lemma run_later (l : list (vec3 Z)) :
  forall (st : loop_state) (f : vec3 R) (ms : list (vec3 R)) (n : nat),
  magnetic_moments st = f :: ms -> num st = S n ->
  positions (fold_left (step q m0) l st) = positions st ++ l /\
  magnetic_moments (fold_left (step q m0) l st) =
    magnetic_moments st ++ map (site_moment q m0) l /\
  angles (fold_left (step q m0) l st) =
    angles st ++ map (fun p => site_angle f (site_moment q m0 p)) l.
Proof.
  induction l as [|p l IH]; intros st f ms n Hm Hn; simpl.
  - now rewrite !app_nil_r.
  - rewrite (step_later st p Hm Hn).
    destruct (IH {| positions := positions st ++ [p];
                    magnetic_moments :=
                      magnetic_moments st ++ [site_moment q m0 p];
                    angles := angles st ++ [site_angle f (site_moment q m0 p)];
                    num := S (S n) |}
                 f (ms ++ [site_moment q m0 p]) (S n)) as (Hp & Hmm & Ha).
    + simpl. now rewrite Hm.
    + reflexivity.
    + rewrite Hp, Hmm, Ha. simpl. now rewrite <- !app_assoc.
Qed.

Lemma run_from_start (l : list (vec3 Z)) :
  positions (fold_left (step q m0) l initial_state) = l /\
  magnetic_moments (fold_left (step q m0) l initial_state) =
    map (site_moment q m0) l /\
  angles (fold_left (step q m0) l initial_state) = run_angles q m0 l.
Proof.
  destruct l as [|p0 rest]; simpl; [repeat split|].
  rewrite step_first.
  destruct (run_later rest
              {| positions := [p0]; magnetic_moments := [site_moment q m0 p0];
                 angles := [0]; num := 1 |}
              (f := site_moment q m0 p0) (ms := []) (n := 0%nat)
              eq_refl eq_refl) as (Hp & Hm & Ha).
  rewrite Hp, Hm, Ha. repeat split.
Qed.

End LoopFacts.

(** What [generate_spiral_structure] returns, in closed form. *)
Lemma generate_closed_form (A : Type) (a : A) (R_max : vec3 Z) (q m0 : vec3 R) :
  Generator.generate_spiral_structure a R_max q m0 =
  (Spec.row_major R_max,
   map (Loop.site_moment q m0) (Spec.row_major R_max),
   Loop.run_angles q m0 (Spec.row_major R_max)).
Proof.
  unfold Generator.generate_spiral_structure.
  rewrite loops_as_one_pass.
  destruct (run_from_start q m0 (Spec.row_major R_max)) as (Hp & Hm & Ha).
  now rewrite Hp, Hm, Ha.
Qed.

(** ** The site list *)

Section Grid.

Import Spec.

Lemma in_range (n x : Z) : In x (range n) <-> (0 <= x < n)%Z.
Proof.
  unfold range. rewrite in_map_iff. split.
  - intros (m & <- & Hm). apply in_seq in Hm. lia.
  - intros Hx. exists (Z.to_nat x). split; [lia|]. apply in_seq. lia.
Qed.

Lemma length_range (n : Z) : length (range n) = Z.to_nat n.
Proof. unfold range. now rewrite length_map, length_seq. Qed.

Lemma NoDup_range (n : Z) : NoDup (range n).
Proof.
  unfold range. apply Injective_map_NoDup; [|apply seq_NoDup].
  intros a b Hab. lia.
Qed.

Lemma nth_error_range (n : Z) (a : nat) :
  (a < Z.to_nat n)%nat -> nth_error (range n) a = Some (Z.of_nat a).
Proof.
  intro Ha. unfold range. rewrite nth_error_map, nth_error_seq.
  apply Nat.ltb_lt in Ha. now rewrite Ha.
Qed.

Lemma nth_error_flat_map_const (A B : Type) (f : A -> list B) (c : nat)
    (l : list A) :
  (forall y, length (f y) = c) ->
  forall (a b : nat) (x : A),
  nth_error l a = Some x -> (b < c)%nat ->
  nth_error (flat_map f l) (a * c + b) = nth_error (f x) b.
Proof.
  intro Hc. induction l as [|y l IH]; intros a b x Ha Hb.
  - destruct a; discriminate.
  - destruct a as [|a]; simpl in Ha |- *.
    + injection Ha as ->. apply nth_error_app1. now rewrite Hc.
    + rewrite nth_error_app2 by (rewrite Hc; lia).
      rewrite Hc. replace (c + a * c + b - c)%nat with (a * c + b)%nat by lia.
      now apply IH.
Qed.

Lemma NoDup_flat_map (A B : Type) (f : A -> list B) (l : list A) :
  NoDup l ->
  (forall x, NoDup (f x)) ->
  (forall x y z, In z (f x) -> In z (f y) -> x = y) ->
  NoDup (flat_map f l).
Proof.
  intros Hl Hf Hinj. induction Hl as [|x l Hx Hl IH]; simpl; [constructor|].
  apply NoDup_app; [apply Hf | exact IH |].
  intros z Hz Hz'. apply in_flat_map in Hz' as (y & Hy & Hzy).
  rewrite (Hinj x y z Hz Hzy) in Hx. contradiction.
Qed.

Variables Nx Ny Nz : Z.

Lemma in_row_major (p : vec3 Z) :
  In p (row_major (Vec3 Nx Ny Nz)) <->
  (0 <= at0 p < Nx)%Z /\ (0 <= at1 p < Ny)%Z /\ (0 <= at2 p < Nz)%Z.
Proof.
  unfold row_major; simpl. rewrite in_flat_map. split.
  - intros (i & Hi & H). apply in_flat_map in H as (j & Hj & H).
    apply in_map_iff in H as (k & <- & Hk). simpl.
    now rewrite <- !in_range.
  - intros (Hi & Hj & Hk). exists (at0 p). split; [now apply in_range|].
    apply in_flat_map. exists (at1 p). split; [now apply in_range|].
    apply in_map_iff. exists (at2 p). split; [now destruct p|].
    now apply in_range.
Qed.

Lemma length_row_major :
  length (row_major (Vec3 Nx Ny Nz)) =
  (Z.to_nat Nx * (Z.to_nat Ny * Z.to_nat Nz))%nat.
Proof.
  unfold row_major; simpl.
  rewrite (@flat_map_constant_length _ _ (Z.to_nat Ny * Z.to_nat Nz)%nat).
  - now rewrite length_range.
  - intros i _. rewrite (@flat_map_constant_length _ _ (Z.to_nat Nz)).
    + now rewrite length_range.
    + intros j _. now rewrite length_map, length_range.
Qed.

Lemma NoDup_row_major : NoDup (row_major (Vec3 Nx Ny Nz)).
Proof.
  unfold row_major; simpl. apply NoDup_flat_map.
  - apply NoDup_range.
  - intro i. apply NoDup_flat_map.
    + apply NoDup_range.
    + intro j. apply Injective_map_NoDup; [|apply NoDup_range].
      intros a b Hab. now injection Hab.
    + intros j j' p Hj Hj'.
      apply in_map_iff in Hj as (k & <- & _).
      apply in_map_iff in Hj' as (k' & Hp & _). now injection Hp.
  - intros i i' p Hi Hi'.
    apply in_flat_map in Hi as (j & _ & Hi).
    apply in_map_iff in Hi as (k & <- & _).
    apply in_flat_map in Hi' as (j' & _ & Hi').
    apply in_map_iff in Hi' as (k' & Hp & _). now injection Hp.
Qed.

Lemma nth_error_row_major_nat (a b c : nat) :
  (a < Z.to_nat Nx)%nat -> (b < Z.to_nat Ny)%nat -> (c < Z.to_nat Nz)%nat ->
  nth_error (row_major (Vec3 Nx Ny Nz))
            (a * (Z.to_nat Ny * Z.to_nat Nz) + (b * Z.to_nat Nz + c)) =
  Some (Vec3 (Z.of_nat a) (Z.of_nat b) (Z.of_nat c)).
Proof.
  intros Ha Hb Hc. unfold row_major; simpl.
  rewrite (@nth_error_flat_map_const _ _ _ (Z.to_nat Ny * Z.to_nat Nz)%nat
             (range Nx)) with (x := Z.of_nat a).
  - rewrite (@nth_error_flat_map_const _ _ _ (Z.to_nat Nz) (range Ny))
      with (x := Z.of_nat b).
    + rewrite nth_error_map, nth_error_range by assumption. reflexivity.
    + intro j. now rewrite length_map, length_range.
    + now apply nth_error_range.
    + assumption.
  - intro i. rewrite (@flat_map_constant_length _ _ (Z.to_nat Nz)).
    + now rewrite length_range.
    + intros j _. now rewrite length_map, length_range.
  - now apply nth_error_range.
  - nia.
Qed.

Lemma nth_error_row_major (i j k : Z) :
  (0 <= i < Nx)%Z -> (0 <= j < Ny)%Z -> (0 <= k < Nz)%Z ->
  nth_error (row_major (Vec3 Nx Ny Nz)) (Z.to_nat (i * (Ny * Nz) + j * Nz + k))
  = Some (Vec3 i j k).
Proof.
  intros Hi Hj Hk.
  replace (Z.to_nat (i * (Ny * Nz) + j * Nz + k))
    with (Z.to_nat i * (Z.to_nat Ny * Z.to_nat Nz)
          + (Z.to_nat j * Z.to_nat Nz + Z.to_nat k))%nat.
  - rewrite nth_error_row_major_nat by lia.
    now rewrite !Z2Nat.id by lia.
  - assert (0 <= Ny * Nz)%Z by nia.
    assert (0 <= i * (Ny * Nz))%Z by nia.
    assert (0 <= j * Nz)%Z by nia.
    rewrite <- !Z2Nat.inj_mul by lia.
    rewrite <- !Z2Nat.inj_add by lia.
    f_equal. lia.
Qed.

End Grid.

(** ** Moments and angles over the reals *)

Section Trigonometry.

Import Generator Spec Loop.
Local Open Scope R_scope.

Lemma sin_cos_square (x : R) : sin x * sin x + cos x * cos x = 1.
Proof. pose proof (sin2_cos2 x) as H. unfold Rsqr in H. exact H. Qed.

(** The code's phase and the specification's phase are the same number. *)
Lemma site_moment_rotate_z (q m0 : vec3 R) (p : vec3 Z) :
  site_moment q m0 p = rotate_z m0 (spec_phase q p).
Proof.
  unfold site_moment, rotate_z, spec_phase.
  replace ((at0 q * IZR (at0 p) + at1 q * IZR (at1 p) + at2 q * IZR (at2 p))
           * 2 * PI)
    with (2 * PI *
          (at0 q * IZR (at0 p) + at1 q * IZR (at1 p) + at2 q * IZR (at2 p)))
    by ring.
  reflexivity.
Qed.

Lemma norm_rotate_z (m0 : vec3 R) (phase : R) :
  norm (rotate_z m0 phase) = norm m0.
Proof.
  unfold norm, rotate_z; simpl. f_equal.
  replace ((at0 m0 * cos phase - at1 m0 * sin phase) *
           (at0 m0 * cos phase - at1 m0 * sin phase) +
           (at0 m0 * sin phase + at1 m0 * cos phase) *
           (at0 m0 * sin phase + at1 m0 * cos phase))
    with ((at0 m0 * at0 m0 + at1 m0 * at1 m0) *
          (sin phase * sin phase + cos phase * cos phase)) by ring.
  rewrite sin_cos_square. ring.
Qed.

Lemma site_moment_zero_q (m0 : vec3 R) (p : vec3 Z) :
  site_moment (Vec3 0 0 0) m0 p = m0.
Proof.
  unfold site_moment; simpl.
  replace ((0 * IZR (at0 p) + 0 * IZR (at1 p) + 0 * IZR (at2 p)) * 2 * PI)
    with 0 by ring.
  rewrite cos_0, sin_0. destruct m0 as [a b c]; simpl. f_equal; ring.
Qed.

Lemma site_moment_zero_m0 (q : vec3 R) (p : vec3 Z) :
  site_moment q (Vec3 0 0 0) p = Vec3 0 0 0.
Proof. unfold site_moment; simpl. f_equal; ring. Qed.

(** The two magnitudes of [angle_deg], as norms. *)
Lemma mag_current_norm (m : vec3 R) :
  sqrt (at0 m ^ 2 + at1 m ^ 2 + at2 m ^ 2) = norm m.
Proof. unfold norm. f_equal. ring. Qed.

Lemma mag_first_norm (f : vec3 R) :
  sqrt (py_sum (map (fun m => m ^ 2) (vec3_list f))) = norm f.
Proof. unfold norm, py_sum, vec3_list; simpl. f_equal. ring. Qed.

(** [site_angle] with its branches named. *)
Lemma site_angle_cases (f m : vec3 R) :
  (norm m * norm f = 0 /\ site_angle f m = 0) \/
  (norm m * norm f <> 0 /\
   site_angle f m =
   acos (clip ((at0 m * at0 f + at1 m * at1 f + at2 m * at2 f)
               / (norm m * norm f)) (-1) 1) * 180 / PI).
Proof.
  unfold site_angle, angle_deg. cbv zeta.
  change (first_moment [f]) with f.
  rewrite mag_current_norm, mag_first_norm. simpl Nat.eqb. cbv iota.
  destruct (Req_dec_T (norm m * norm f) 0) as [H|H]; [left|right]; now split.
Qed.

Lemma clip_bounds (x : R) : -1 <= clip x (-1) 1 <= 1.
Proof.
  unfold clip, Rmin, Rmax.
  destruct (Rle_dec x (-1)); destruct (Rle_dec _ 1); lra.
Qed.

Lemma clip_one : clip 1 (-1) 1 = 1.
Proof.
  unfold clip, Rmin, Rmax.
  destruct (Rle_dec 1 (-1)); destruct (Rle_dec _ 1); lra.
Qed.

Lemma degrees_bounds (x : R) : 0 <= acos x * 180 / PI <= 180.
Proof.
  pose proof (acos_bound x) as [H0 H1]. pose proof PI_RGT_0 as Hpi.
  split.
  - apply Rmult_le_pos; [nra|]. left. now apply Rinv_0_lt_compat.
  - apply Rmult_le_reg_r with PI; [exact Hpi|].
    unfold Rdiv. rewrite Rmult_assoc, Rinv_l by lra. nra.
Qed.

Lemma site_angle_bounds (f m : vec3 R) : 0 <= site_angle f m <= 180.
Proof.
  destruct (site_angle_cases f m) as [[_ ->]|[_ ->]]; [lra|].
  apply degrees_bounds.
Qed.

Lemma site_angle_shape (f m : vec3 R) :
  site_angle f m = 0 \/ is_clamped_arccos_deg (site_angle f m).
Proof.
  destruct (site_angle_cases f m) as [[_ H]|[_ H]]; [now left|right].
  rewrite H. eexists. split; [apply clip_bounds|reflexivity].
Qed.

Lemma norm_nonneg_square (m : vec3 R) :
  0 <= at0 m * at0 m + at1 m * at1 m + at2 m * at2 m.
Proof. nra. Qed.

(** A moment makes the angle 0 with itself. *)
Lemma site_angle_self (m : vec3 R) : site_angle m m = 0.
Proof.
  destruct (site_angle_cases m m) as [[_ H]|[Hn H]]; [exact H|].
  rewrite H.
  replace ((at0 m * at0 m + at1 m * at1 m + at2 m * at2 m) / (norm m * norm m))
    with 1.
  - rewrite clip_one, acos_1. unfold Rdiv. ring.
  - unfold norm in *. rewrite sqrt_sqrt in * by apply norm_nonneg_square.
    now field.
Qed.

Lemma norm_zero : norm (Vec3 0 0 0) = 0.
Proof.
  unfold norm; simpl.
  replace (0 * 0 + 0 * 0 + 0 * 0) with 0 by ring. apply sqrt_0.
Qed.

End Trigonometry.

(** ** The generator's results *)

Section GeneratorResults.

Import Generator Spec Loop.
Local Open Scope R_scope.

Lemma length_run_angles (q m0 : vec3 R) (l : list (vec3 Z)) :
  length (run_angles q m0 l) = length l.
Proof. destruct l; simpl; [reflexivity|]. now rewrite length_map. Qed.

Lemma map_constant (A B : Type) (f : A -> B) (c : B) (l : list A) :
  (forall x, f x = c) -> map f l = repeat c (length l).
Proof.
  intro H. induction l as [|x l IH]; simpl; [reflexivity|]. now rewrite H, IH.
Qed.

Lemma run_angles_constant_moment (q m0 : vec3 R) (l : list (vec3 Z)) :
  (forall p, site_moment q m0 p = m0) ->
  run_angles q m0 l = repeat 0 (length l).
Proof.
  intro H. destruct l as [|p0 rest]; simpl; [reflexivity|]. f_equal.
  apply map_constant. intro p. rewrite !H. apply site_angle_self.
Qed.

Lemma volume_to_nat (Nx Ny Nz : Z) :
  (0 < Nx)%Z -> (0 < Ny)%Z -> (0 < Nz)%Z ->
  (Z.to_nat Nx * (Z.to_nat Ny * Z.to_nat Nz))%nat = Z.to_nat (Nx * Ny * Nz).
Proof.
  intros Hx Hy Hz. rewrite <- !Z2Nat.inj_mul by lia.
  f_equal. lia.
Qed.

(** C1.  For positive extents the three returned lists have [Nx*Ny*Nz]
    entries each, and the positions hold every triple [(i, j, k)] of the grid
    exactly once, in row-major order: the triple stands at index
    [i*Ny*Nz + j*Nz + k]. *)
Theorem generate_enumerates_grid (A : Type) (a : A) (Nx Ny Nz : Z)
    (q m0 : vec3 R) :
  (0 < Nx)%Z -> (0 < Ny)%Z -> (0 < Nz)%Z ->
  let r := generate_spiral_structure a (Vec3 Nx Ny Nz) q m0 in
  length (out_positions r) = Z.to_nat (Nx * Ny * Nz) /\
  length (out_moments r) = Z.to_nat (Nx * Ny * Nz) /\
  length (out_angles r) = Z.to_nat (Nx * Ny * Nz) /\
  NoDup (out_positions r) /\
  (forall p, In p (out_positions r) <->
             (0 <= at0 p < Nx)%Z /\ (0 <= at1 p < Ny)%Z /\ (0 <= at2 p < Nz)%Z)
  /\
  (forall i j k, (0 <= i < Nx)%Z -> (0 <= j < Ny)%Z -> (0 <= k < Nz)%Z ->
     nth_error (out_positions r) (Z.to_nat (i * (Ny * Nz) + j * Nz + k))
     = Some (Vec3 i j k)).
Proof.
  intros Hx Hy Hz r. subst r. rewrite generate_closed_form.
  unfold out_positions, out_moments, out_angles; simpl fst; simpl snd.
  rewrite length_run_angles, length_map, length_row_major,
    (volume_to_nat Hx Hy Hz).
  split; [reflexivity|]. split; [reflexivity|]. split; [reflexivity|].
  split; [apply NoDup_row_major|].
  split; [intro p; apply in_row_major|].
  apply nth_error_row_major.
Qed.

(** C2.  The moment stored for each site is the rotation of [m0] about the z
    axis by [2 pi (qx i + qy j + qz k)]: the moments list is that rotation
    applied to the positions list, entry by entry. *)
Theorem moments_are_z_rotations (A : Type) (a : A) (R_max : vec3 Z)
    (q m0 : vec3 R) :
  let r := generate_spiral_structure a R_max q m0 in
  out_moments r =
  map (fun p =>
         let phase :=
           2 * PI * (at0 q * IZR (at0 p) + at1 q * IZR (at1 p)
                     + at2 q * IZR (at2 p)) in
         Vec3 (at0 m0 * cos phase - at1 m0 * sin phase)
              (at0 m0 * sin phase + at1 m0 * cos phase)
              (at2 m0))
      (out_positions r).
Proof.
  intro r; subst r. rewrite generate_closed_form.
  unfold out_moments, out_positions; simpl.
  apply map_ext. intro p. apply site_moment_rotate_z.
Qed.

(** C3.  Every stored moment, the first included, has the Euclidean norm of
    the initial moment. *)
Theorem moments_keep_norm (A : Type) (a : A) (R_max : vec3 Z) (q m0 : vec3 R) :
  Forall (fun m => norm m = norm m0)
         (out_moments (generate_spiral_structure a R_max q m0)).
Proof.
  rewrite generate_closed_form. unfold out_moments; simpl.
  apply Forall_forall. intros m Hm.
  apply in_map_iff in Hm as (p & <- & _).
  rewrite site_moment_rotate_z. apply norm_rotate_z.
Qed.

(** C4, amended.  With the wave vector (0, 0, 0) and positive extents, in
    exact real arithmetic every stored moment is [m0] and every stored angle
    is 0. *)
Theorem zero_wave_vector (A : Type) (a : A) (Nx Ny Nz : Z) (m0 : vec3 R) :
  (0 < Nx)%Z -> (0 < Ny)%Z -> (0 < Nz)%Z ->
  let r := generate_spiral_structure a (Vec3 Nx Ny Nz) (Vec3 0 0 0) m0 in
  out_moments r = repeat m0 (Z.to_nat (Nx * Ny * Nz)) /\
  out_angles r = repeat 0 (Z.to_nat (Nx * Ny * Nz)).
Proof.
  intros Hx Hy Hz r; subst r. rewrite generate_closed_form.
  unfold out_moments, out_angles; simpl fst; simpl snd.
  rewrite <- (volume_to_nat Hx Hy Hz), <- length_row_major. split.
  - apply map_constant. apply site_moment_zero_q.
  - apply run_angles_constant_moment. apply site_moment_zero_q.
Qed.

(** C5.  Every returned angle lies in [0, 180]; when there is a first entry
    it is 0, and each later entry is 0 (the fallback) or the arccos, in
    degrees, of a cosine clamped to [-1, 1]. *)
Theorem angles_in_range (A : Type) (a : A) (R_max : vec3 Z) (q m0 : vec3 R) :
  let angles := out_angles (generate_spiral_structure a R_max q m0) in
  Forall (fun x => 0 <= x <= 180) angles /\
  (angles = [] \/
   exists rest, angles = 0 :: rest /\
                Forall (fun x => x = 0 \/ is_clamped_arccos_deg x) rest).
Proof.
  intro angles; subst angles. rewrite generate_closed_form.
  unfold out_angles; simpl snd.
  destruct (row_major R_max) as [|p0 rest]; simpl.
  - split; [constructor|now left].
  - split.
    + constructor; [lra|]. apply Forall_forall. intros x Hx.
      apply in_map_iff in Hx as (p & <- & _). apply site_angle_bounds.
    + right. eexists. split; [reflexivity|].
      apply Forall_forall. intros x Hx.
      apply in_map_iff in Hx as (p & <- & _). apply site_angle_shape.
Qed.

(** C6.  With the initial moment (0, 0, 0) and positive extents, every stored
    moment is (0, 0, 0), every stored angle is 0, and the zero test of the
    magnitude product (the fallback branch) holds at every site. *)
Theorem zero_initial_moment (A : Type) (a : A) (Nx Ny Nz : Z) (q : vec3 R) :
  (0 < Nx)%Z -> (0 < Ny)%Z -> (0 < Nz)%Z ->
  let r := generate_spiral_structure a (Vec3 Nx Ny Nz) q (Vec3 0 0 0) in
  out_moments r = repeat (Vec3 0 0 0) (Z.to_nat (Nx * Ny * Nz)) /\
  out_angles r = repeat 0 (Z.to_nat (Nx * Ny * Nz)) /\
  Forall (zero_magnitude_guard (out_moments r)) (out_moments r).
Proof.
  intros Hx Hy Hz r; subst r. rewrite generate_closed_form.
  unfold out_moments, out_angles; simpl fst; simpl snd.
  assert (Hm : map (site_moment q (Vec3 0 0 0)) (row_major (Vec3 Nx Ny Nz)) =
               repeat (Vec3 0 0 0) (Z.to_nat (Nx * Ny * Nz))).
  { rewrite <- (volume_to_nat Hx Hy Hz), <- length_row_major.
    apply map_constant. apply site_moment_zero_m0. }
  rewrite Hm. repeat split.
  - rewrite <- (volume_to_nat Hx Hy Hz), <- length_row_major.
    apply run_angles_constant_moment. apply site_moment_zero_m0.
  - apply Forall_forall. intros m Hin. apply repeat_spec in Hin. subst m.
    unfold zero_magnitude_guard.
    rewrite (mag_current_norm (Vec3 0 0 0)), norm_zero. ring.
Qed.

(** C9.  [atoms_in_spiral] has no influence: two calls that agree on the
    other three arguments return the same tuple. *)
Theorem atoms_in_spiral_unused (A B : Type) (a : A) (b : B) (R_max : vec3 Z)
    (q m0 : vec3 R) :
  generate_spiral_structure a R_max q m0 =
  generate_spiral_structure b R_max q m0.
Proof. reflexivity. Qed.

End GeneratorResults.

(** ** Fixed-point conversion *)

Section FixedPoint.

Import Serializer.
Local Open Scope R_scope.

(** A real strictly within one half of an integer rounds to it. *)
Lemma round_half_even_near (x : R) (n : Z) :
  IZR n - 1 / 2 < x < IZR n + 1 / 2 -> round_half_even x = n.
Proof.
  intros [Hlo Hhi]. unfold round_half_even.
  destruct (Rle_dec (IZR n) x) as [Hge|Hlt].
  - assert (Hi : Int_part x = n).
    { symmetry. apply Int_part_spec. lra. }
    rewrite Hi. destruct (Rlt_dec (x - IZR n) (1 / 2)); [reflexivity | lra].
  - assert (Hi : Int_part x = (n - 1)%Z).
    { symmetry. apply Int_part_spec. rewrite minus_IZR. lra. }
    rewrite Hi, minus_IZR.
    destruct (Rlt_dec (x - (IZR n - 1)) (1 / 2)); [lra|].
    destruct (Rlt_dec (1 / 2) (x - (IZR n - 1))); [f_equal; lia | lra].
Qed.

Lemma fixed_digits_near (prec : nat) (x : R) (d : Z) :
  IZR d - 1 / 2 < Rabs x * 10 ^ prec < IZR d + 1 / 2 ->
  fixed_digits prec x = d.
Proof. apply round_half_even_near. Qed.

(** The conversion of a non-negative number whose digits are known. *)
Lemma format_f_nonneg (width prec : nat) (x : R) (d : Z) :
  0 <= x ->
  IZR d - 1 / 2 < x * 10 ^ prec < IZR d + 1 / 2 ->
  format_f width prec x = pad_left " "%char width (fixed_text prec d).
Proof.
  intros Hx Hd. unfold format_f.
  rewrite (@fixed_digits_near prec x d) by (rewrite Rabs_pos_eq; assumption).
  destruct (Rlt_dec x 0); [lra | reflexivity].
Qed.

End FixedPoint.

(** ** The serializer's writes *)

Section SerializerResults.

Import Serializer Spec.

Lemma fold_left_write (A : Type) (g : A -> string) (l : list A) (f : file) :
  fold_left (fun f x => write f (g x)) l f = f ++ map g l.
Proof.
  revert f; induction l as [|x l IH]; intro f; simpl.
  - now rewrite app_nil_r.
  - rewrite IH. unfold write. now rewrite <- app_assoc.
Qed.

(** The document is the rendering of the values at the given scale. *)
Lemma create_xsf_file_render (positions moments : list (vec3 R))
    (R_max : vec3 Z) (scale : R) :
  create_xsf_file positions moments R_max scale =
  render (length positions) (cell_values R_max scale)
         (site_values positions moments scale).
Proof.
  unfold create_xsf_file, render, site_values.
  rewrite (fold_left_write
             (fun pm => record_line (scaled (fst pm) scale)
                                    (scaled (snd pm) scale))).
  unfold write. simpl app. rewrite map_map. reflexivity.
Qed.

End SerializerResults.

(** ** Claims on the serializer *)

Section SerializerClaims.

Import Generator Serializer Spec.
Local Open Scope R_scope.

Ltac known_digits w p d :=
  rewrite (@format_f_nonneg w p _ d) by (simpl; lra).

(** C7, as stated, fails on the written numerals.  For the single moment
    (1/3, 0, 0) the record written at scale 1 shows 0.3333 and the record
    written at scale 3 shows 1.0000, which is not 3 times 0.3333. *)
Lemma scale_written_counterexample :
  nth 9 (create_xsf_file [Vec3 0 0 0] [Vec3 (1 / 3) 0 0] (Vec3 1 1 1)%Z 1)
        EmptyString
  = ("26    0.0000    0.0000    0.0000    0.3333    0.0000    0.0000"
       ++ nl)%string /\
  nth 9 (create_xsf_file [Vec3 0 0 0] [Vec3 (1 / 3) 0 0] (Vec3 1 1 1)%Z 3)
        EmptyString
  = ("26    0.0000    0.0000    0.0000    1.0000    0.0000    0.0000"
       ++ nl)%string /\
  written 4 (1 / 3 * 3) <> 3 * written 4 (1 / 3 * 1).
Proof.
  split; [|split].
  - rewrite create_xsf_file_render.
    unfold render, site_values, scaled, record_line.
    cbn [combine map fst snd at0 at1 at2 nth app].
    known_digits 8%nat 4%nat 0%Z. known_digits 8%nat 4%nat 3333%Z.
    vm_compute. reflexivity.
  - rewrite create_xsf_file_render.
    unfold render, site_values, scaled, record_line.
    cbn [combine map fst snd at0 at1 at2 nth app].
    known_digits 8%nat 4%nat 0%Z. known_digits 8%nat 4%nat 10000%Z.
    vm_compute. reflexivity.
  - unfold written.
    rewrite (@fixed_digits_near 4 (1 / 3 * 3) 10000)
      by (rewrite Rabs_pos_eq by lra; simpl; lra).
    rewrite (@fixed_digits_near 4 (1 / 3 * 1) 3333)
      by (rewrite Rabs_pos_eq by lra; simpl; lra).
    destruct (Rlt_dec (1 / 3 * 3) 0); [lra|].
    destruct (Rlt_dec (1 / 3 * 1) 0); [lra|].
    simpl. lra.
Qed.

(** C7, amended.  The values handed to the fixed-point conversion at scale
    [s] are [s] times those handed to it at scale 1, for the three cell
    dimensions and for every coordinate and moment component; the document
    is the rendering of these values, each rounded to the decimals of its
    field. *)
Theorem scale_multiplies_formatted_values (positions moments : list (vec3 R))
    (R_max : vec3 Z) (s : R) :
  create_xsf_file positions moments R_max 1 =
    render (length positions) (cell_values R_max 1)
           (site_values positions moments 1) /\
  create_xsf_file positions moments R_max s =
    render (length positions) (times s (cell_values R_max 1))
           (map (fun r => (times s (fst r), times s (snd r)))
                (site_values positions moments 1)).
Proof.
  split; [apply create_xsf_file_render|].
  rewrite create_xsf_file_render. f_equal.
  - unfold cell_values, times; simpl. f_equal; ring.
  - unfold site_values. rewrite map_map. apply map_ext.
    intros [p m]. unfold scaled, times; simpl.
    f_equal; f_equal; ring.
Qed.

(** C8, as stated, fails on the data line: each of the six numbers is set in
    a field of eight characters, so four blanks, not two, separate the
    columns. *)
Lemma single_site_line_counterexample :
  nth 9 (lines (file_text
           (create_xsf_file
              (map as_reals
                 (out_positions
                    (generate_spiral_structure tt (Vec3 1 1 1)%Z (Vec3 0 0 0)
                                               (Vec3 1 0 0))))
              (out_moments
                 (generate_spiral_structure tt (Vec3 1 1 1)%Z (Vec3 0 0 0)
                                            (Vec3 1 0 0)))
              (Vec3 1 1 1)%Z 1)))
      EmptyString
  <> "26  0.0000  0.0000  0.0000  1.0000  0.0000  0.0000"%string.
Proof.
  rewrite generate_closed_form.
  change (row_major (Vec3 1 1 1)%Z) with [Vec3 0 0 0]%Z.
  unfold out_positions, out_moments.
  cbn [fst snd map]. rewrite site_moment_zero_q.
  rewrite create_xsf_file_render.
  unfold render, cell_values, site_values, scaled, as_reals, record_line.
  cbn [combine map fst snd at0 at1 at2 length].
  known_digits 8%nat 4%nat 0%Z. known_digits 8%nat 4%nat 10000%Z.
  known_digits 6%nat 1%nat 10%Z.
  vm_compute. discriminate.
Qed.

(** C8, amended.  For extents (1, 1, 1), wave vector (0, 0, 0), initial
    moment (1, 0, 0) and scale 1 the generator returns the single site
    (0, 0, 0) with moment (1, 0, 0) and angle 0, and the document has the
    count line [1 1] and the single data line
    [26    0.0000    0.0000    0.0000    1.0000    0.0000    0.0000]. *)
Theorem single_site_document (A : Type) (a : A) :
  let r := generate_spiral_structure a (Vec3 1 1 1)%Z (Vec3 0 0 0)
                                     (Vec3 1 0 0) in
  r = ([Vec3 0 0 0]%Z, [Vec3 1 0 0], [0]) /\
  lines (file_text (create_xsf_file (map as_reals (out_positions r))
                                    (out_moments r) (Vec3 1 1 1)%Z 1)) =
  [ "# XSF file generated for magnetic spiral visualization";
    "# Can be opened in VESTA to visualize magnetic moments";
    "CRYSTAL";
    "PRIMVEC";
    "   1.0  0.0  0.0";
    "  0.0     1.0  0.0";
    "  0.0  0.0     1.0";
    "PRIMCOORD";
    "1 1";
    "26    0.0000    0.0000    0.0000    1.0000    0.0000    0.0000";
    "" ]%string.
Proof.
  intro r; subst r. rewrite generate_closed_form.
  change (row_major (Vec3 1 1 1)%Z) with [Vec3 0 0 0]%Z.
  unfold out_positions, out_moments, Loop.run_angles.
  cbn [fst snd map]. rewrite site_moment_zero_q.
  split; [reflexivity|].
  rewrite create_xsf_file_render.
  unfold render, cell_values, site_values, scaled, as_reals, record_line.
  cbn [combine map fst snd at0 at1 at2 length].
  known_digits 8%nat 4%nat 0%Z. known_digits 8%nat 4%nat 10000%Z.
  known_digits 6%nat 1%nat 10%Z.
  vm_compute. reflexivity.
Qed.

(** C10.  The records written after the count line number
    [min(len(positions), len(moments))], one per pair of the zip, while the
    count line states [len(positions)]; with fewer moments than positions
    the stated count exceeds the number of records. *)
Theorem records_follow_zip (positions moments : list (vec3 R))
    (R_max : vec3 Z) (scale : R) :
  let f := create_xsf_file positions moments R_max scale in
  nth 7 f EmptyString = ("PRIMCOORD" ++ nl)%string /\
  nth 8 f EmptyString = (str_of_nat (length positions) ++ " 1" ++ nl)%string /\
  data_records f =
    map (fun pm => record_line (scaled (fst pm) scale) (scaled (snd pm) scale))
        (combine positions moments) /\
  length (data_records f) = Nat.min (length positions) (length moments) /\
  length f = (9 + Nat.min (length positions) (length moments) + 1)%nat /\
  last f EmptyString = nl /\
  ((length moments < length positions)%nat ->
   (length (data_records f) < length positions)%nat).
Proof.
  intro f; subst f. rewrite create_xsf_file_render.
  unfold render, data_records, site_values.
  cbn [nth app skipn]. rewrite removelast_last, map_map.
  cbn [fst snd].
  split; [reflexivity|]. split; [reflexivity|]. split; [reflexivity|].
  rewrite !length_map, length_combine.
  split; [reflexivity|]. split.
  - cbn [length]. rewrite length_app, length_map, length_combine.
    simpl. lia.
  - split; [rewrite !app_comm_cons; apply last_last | lia].
Qed.

End SerializerClaims.

(** ** Instances of the conditional statements *)

Section Instances.

Import Generator Serializer Spec.
Local Open Scope R_scope.

(** The grid statement on a 2 x 3 x 2 supercell. *)
Lemma generate_enumerates_grid_witness :
  (0 < 2)%Z /\ (0 < 3)%Z /\ (0 < 2)%Z /\
  length (out_positions
            (generate_spiral_structure tt (Vec3 2 3 2)%Z
               (Vec3 0 (1 / 3) (1 / 3)) (Vec3 1 0 0))) = 12%nat /\
  nth_error (out_positions
               (generate_spiral_structure tt (Vec3 2 3 2)%Z
                  (Vec3 0 (1 / 3) (1 / 3)) (Vec3 1 0 0))) 9
  = Some (Vec3 1 1 1)%Z.
Proof.
  pose proof (@generate_enumerates_grid unit tt 2 3 2
                (Vec3 0 (1 / 3) (1 / 3)) (Vec3 1 0 0)
                ltac:(lia) ltac:(lia) ltac:(lia)) as H.
  cbv zeta in H. destruct H as (Hlen & _ & _ & _ & _ & Hnth).
  split; [lia|]. split; [lia|]. split; [lia|]. split.
  - exact Hlen.
  - apply (Hnth 1%Z 1%Z 1%Z); lia.
Defined.

(** The zero wave vector on a 2 x 1 x 2 supercell with moment (1, 0, 0). *)
Lemma zero_wave_vector_witness :
  (0 < 2)%Z /\ (0 < 1)%Z /\ (0 < 2)%Z /\
  out_moments (generate_spiral_structure tt (Vec3 2 1 2)%Z (Vec3 0 0 0)
                 (Vec3 1 0 0))
  = [Vec3 1 0 0; Vec3 1 0 0; Vec3 1 0 0; Vec3 1 0 0] /\
  out_angles (generate_spiral_structure tt (Vec3 2 1 2)%Z (Vec3 0 0 0)
                (Vec3 1 0 0))
  = [0; 0; 0; 0].
Proof.
  pose proof (@zero_wave_vector unit tt 2 1 2 (Vec3 1 0 0)
                ltac:(lia) ltac:(lia) ltac:(lia)) as H.
  cbv zeta in H. destruct H as (Hm & Ha).
  split; [lia|]. split; [lia|]. split; [lia|]. split.
  - exact Hm.
  - exact Ha.
Defined.

(** The zero initial moment on a 1 x 2 x 1 supercell. *)
Lemma zero_initial_moment_witness :
  (0 < 1)%Z /\ (0 < 2)%Z /\ (0 < 1)%Z /\
  out_moments (generate_spiral_structure tt (Vec3 1 2 1)%Z
                 (Vec3 0 (1 / 3) (1 / 3)) (Vec3 0 0 0))
  = [Vec3 0 0 0; Vec3 0 0 0] /\
  out_angles (generate_spiral_structure tt (Vec3 1 2 1)%Z
                (Vec3 0 (1 / 3) (1 / 3)) (Vec3 0 0 0))
  = [0; 0].
Proof.
  pose proof (@zero_initial_moment unit tt 1 2 1 (Vec3 0 (1 / 3) (1 / 3))
                ltac:(lia) ltac:(lia) ltac:(lia)) as H.
  cbv zeta in H. destruct H as (Hm & Ha & _).
  split; [lia|]. split; [lia|]. split; [lia|]. split.
  - exact Hm.
  - exact Ha.
Defined.

(** Two positions and one moment: the count line says 2, one record is
    written. *)
Lemma records_follow_zip_witness :
  Nat.lt (length [Vec3 1 0 0]) (length [Vec3 0 0 0; Vec3 0 0 1]) /\
  Nat.lt (length (data_records
                    (create_xsf_file [Vec3 0 0 0; Vec3 0 0 1] [Vec3 1 0 0]
                                     (Vec3 1 1 2)%Z 3)))
         (length [Vec3 0 0 0; Vec3 0 0 1]).
Proof.
  pose proof (@records_follow_zip [Vec3 0 0 0; Vec3 0 0 1] [Vec3 1 0 0]
                (Vec3 1 1 2)%Z 3) as H.
  cbv zeta in H. destruct H as (_ & _ & _ & _ & _ & _ & Hlt).
  split; [simpl; lia | apply Hlt; simpl; lia].
Defined.

End Instances.

(** ** Further properties of the generator *)

Section GeneratorExtras.

Import Generator Spec Loop Text.
Local Open Scope R_scope.

Lemma cos_period_Z (x : R) (n : Z) : cos (x + 2 * IZR n * PI) = cos x.
Proof.
  destruct (Z_le_gt_dec 0 n) as [Hn|Hn].
  - rewrite <- (Z2Nat.id n Hn), <- INR_IZR_INZ. apply cos_period.
  - rewrite <- (cos_period (x + 2 * IZR n * PI) (Z.to_nat (- n))).
    rewrite INR_IZR_INZ, Z2Nat.id by lia. rewrite opp_IZR.
    f_equal. ring.
Qed.

Lemma sin_period_Z (x : R) (n : Z) : sin (x + 2 * IZR n * PI) = sin x.
Proof.
  destruct (Z_le_gt_dec 0 n) as [Hn|Hn].
  - rewrite <- (Z2Nat.id n Hn), <- INR_IZR_INZ. apply sin_period.
  - rewrite <- (sin_period (x + 2 * IZR n * PI) (Z.to_nat (- n))).
    rewrite INR_IZR_INZ, Z2Nat.id by lia. rewrite opp_IZR.
    f_equal. ring.
Qed.

(** The stored moment depends on the site through [q . p] only, and only up
    to whole turns. *)
Lemma site_moment_whole_turns (q q' m0 : vec3 R) (p p' : vec3 Z) (n : Z) :
  dot_site q' p' - dot_site q p = IZR n ->
  site_moment q' m0 p' = site_moment q m0 p.
Proof.
  intro H. unfold site_moment.
  change (at0 q' * IZR (at0 p') + at1 q' * IZR (at1 p') + at2 q' * IZR (at2 p'))
    with (dot_site q' p').
  change (at0 q * IZR (at0 p) + at1 q * IZR (at1 p) + at2 q * IZR (at2 p))
    with (dot_site q p).
  replace (dot_site q' p' * 2 * PI)
    with (dot_site q p * 2 * PI + 2 * IZR n * PI) by (rewrite <- H; ring).
  now rewrite cos_period_Z, sin_period_Z.
Qed.

Lemma site_moment_origin (q m0 : vec3 R) : site_moment q m0 (Vec3 0 0 0)%Z = m0.
Proof.
  unfold site_moment; simpl.
  replace ((at0 q * 0 + at1 q * 0 + at2 q * 0) * 2 * PI) with 0 by ring.
  rewrite cos_0, sin_0. destruct m0 as [a b c]; simpl. f_equal; ring.
Qed.

(** A non-empty site list starts at the origin. *)
Lemma row_major_head (R_max : vec3 Z) (p0 : vec3 Z) (rest : list (vec3 Z)) :
  row_major R_max = p0 :: rest -> p0 = (Vec3 0 0 0)%Z.
Proof.
  destruct R_max as [Nx Ny Nz]. intro H.
  assert (Hin : In p0 (row_major (Vec3 Nx Ny Nz))) by (rewrite H; now left).
  apply in_row_major in Hin as (Hx & Hy & Hz).
  pose proof (@nth_error_row_major Nx Ny Nz 0 0 0
                ltac:(lia) ltac:(lia) ltac:(lia)) as H0.
  rewrite H in H0. simpl in H0. now injection H0.
Qed.

Lemma row_major_nil_iff (Nx Ny Nz : Z) :
  row_major (Vec3 Nx Ny Nz) = [] <-> (Nx <= 0 \/ Ny <= 0 \/ Nz <= 0)%Z.
Proof.
  rewrite <- length_zero_iff_nil, length_row_major. split.
  - intro H. nia.
  - intros [H|[H|H]].
    + replace (Z.to_nat Nx) with 0%nat by lia. reflexivity.
    + replace (Z.to_nat Ny) with 0%nat by lia. lia.
    + replace (Z.to_nat Nz) with 0%nat by lia. lia.
Qed.

(** X1.  The result is three empty lists exactly when some extent is zero or
    negative; no error is raised for such extents. *)
Theorem empty_result_iff_nonpositive_extent (A : Type) (a : A)
    (Nx Ny Nz : Z) (q m0 : vec3 R) :
  generate_spiral_structure a (Vec3 Nx Ny Nz) q m0 = ([], [], []) <->
  (Nx <= 0 \/ Ny <= 0 \/ Nz <= 0)%Z.
Proof.
  rewrite generate_closed_form, <- row_major_nil_iff. split.
  - intro H. now injection H.
  - intros ->. reflexivity.
Qed.

(** X2.  With positive extents the first site is the origin, its moment is
    the initial moment itself, whatever the wave vector, and its angle is 0. *)
Theorem first_site_is_reference (A : Type) (a : A) (Nx Ny Nz : Z)
    (q m0 : vec3 R) :
  (0 < Nx)%Z -> (0 < Ny)%Z -> (0 < Nz)%Z ->
  let r := generate_spiral_structure a (Vec3 Nx Ny Nz) q m0 in
  nth_error (out_positions r) 0 = Some (Vec3 0 0 0)%Z /\
  nth_error (out_moments r) 0 = Some m0 /\
  nth_error (out_angles r) 0 = Some 0.
Proof.
  intros Hx Hy Hz r; subst r. rewrite generate_closed_form.
  unfold out_positions, out_moments, out_angles; cbn [fst snd].
  pose proof (@nth_error_row_major Nx Ny Nz 0 0 0
                ltac:(lia) ltac:(lia) ltac:(lia)) as H0.
  simpl in H0.
  destruct (row_major (Vec3 Nx Ny Nz)) as [|p0 rest]; [discriminate|].
  simpl in H0. injection H0 as ->. simpl.
  now rewrite site_moment_origin.
Qed.

(** X3.  Two generated sites whose [q . p] differ by an integer carry the
    same moment: the spiral repeats after whole turns. *)
Theorem moments_repeat_after_whole_turns (A : Type) (a : A) (R_max : vec3 Z)
    (q m0 : vec3 R) (i j : nat) (p p' : vec3 Z) (n : Z) :
  let r := generate_spiral_structure a R_max q m0 in
  nth_error (out_positions r) i = Some p ->
  nth_error (out_positions r) j = Some p' ->
  dot_site q p' - dot_site q p = IZR n ->
  nth_error (out_moments r) j = nth_error (out_moments r) i.
Proof.
  intro r; subst r. rewrite generate_closed_form.
  unfold out_positions, out_moments; cbn [fst snd].
  intros Hi Hj Hn. rewrite !nth_error_map, Hi, Hj. simpl.
  f_equal. eapply site_moment_whole_turns. exact Hn.
Qed.

Lemma run_angles_ext (q q' m0 m0' : vec3 R) (l : list (vec3 Z)) :
  (forall p, site_moment q' m0' p = site_moment q m0 p) ->
  run_angles q' m0' l = run_angles q m0 l.
Proof.
  intro H. destruct l as [|p0 rest]; simpl; [reflexivity|]. f_equal.
  apply map_ext. intro p. now rewrite !H.
Qed.

(** X4.  Wave vectors that differ by a vector of integers give the same
    result. *)
Theorem integer_shift_of_wave_vector (A : Type) (a : A) (R_max : vec3 Z)
    (q q' m0 : vec3 R) (n0 n1 n2 : Z) :
  at0 q' - at0 q = IZR n0 ->
  at1 q' - at1 q = IZR n1 ->
  at2 q' - at2 q = IZR n2 ->
  generate_spiral_structure a R_max q' m0 =
  generate_spiral_structure a R_max q m0.
Proof.
  intros H0 H1 H2. rewrite !generate_closed_form.
  assert (H : forall p, site_moment q' m0 p = site_moment q m0 p).
  { intro p.
    apply site_moment_whole_turns
      with (n := (n0 * at0 p + n1 * at1 p + n2 * at2 p)%Z).
    rewrite !plus_IZR, !mult_IZR, <- H0, <- H1, <- H2.
    unfold dot_site. ring. }
  f_equal; [f_equal|].
  - now apply map_ext.
  - now apply run_angles_ext.
Qed.

Lemma clip_inside (x : R) : -1 <= x <= 1 -> clip x (-1) 1 = x.
Proof.
  intros [Hlo Hhi]. unfold clip, Rmin, Rmax.
  destruct (Rle_dec x (-1)); destruct (Rle_dec _ 1); lra.
Qed.

Lemma ratio_bounds (n d : R) : 0 < d -> - d <= n <= d -> -1 <= n / d <= 1.
Proof.
  intros Hd [Hlo Hhi]. split.
  - apply Rmult_le_reg_r with d; [exact Hd|].
    unfold Rdiv. rewrite Rmult_assoc, Rinv_l by lra. lra.
  - apply Rmult_le_reg_r with d; [exact Hd|].
    unfold Rdiv. rewrite Rmult_assoc, Rinv_l by lra. lra.
Qed.

(** The angle of a rotated moment to a non-zero initial moment, over the
    reals. *)
Lemma site_angle_rotation (m0 : vec3 R) (phase : R) :
  at0 m0 * at0 m0 + at1 m0 * at1 m0 + at2 m0 * at2 m0 <> 0 ->
  site_angle m0 (rotate_z m0 phase) = rotation_angle_deg m0 phase.
Proof.
  intro HS.
  pose proof (norm_nonneg_square m0) as Hpos.
  assert (Hnn : norm (rotate_z m0 phase) * norm m0 =
                at0 m0 * at0 m0 + at1 m0 * at1 m0 + at2 m0 * at2 m0).
  { rewrite norm_rotate_z. unfold norm. now apply sqrt_sqrt. }
  destruct (site_angle_cases m0 (rotate_z m0 phase)) as [[H0 _]|[_ H]].
  - rewrite Hnn in H0. contradiction.
  - rewrite H, Hnn. unfold rotation_angle_deg, rotate_z; cbn [at0 at1 at2].
    replace ((at0 m0 * cos phase - at1 m0 * sin phase) * at0 m0 +
             (at0 m0 * sin phase + at1 m0 * cos phase) * at1 m0 +
             at2 m0 * at2 m0)
      with ((at0 m0 * at0 m0 + at1 m0 * at1 m0) * cos phase + at2 m0 * at2 m0)
      by ring.
    rewrite clip_inside; [reflexivity|].
    apply ratio_bounds; [lra|].
    pose proof (COS_bound phase) as [Hc1 Hc2].
    assert (0 <= at0 m0 * at0 m0 + at1 m0 * at1 m0) by nra.
    assert (0 <= at2 m0 * at2 m0) by nra.
    split; nra.
Qed.

Lemma rotation_angle_zero_phase (m0 : vec3 R) :
  at0 m0 * at0 m0 + at1 m0 * at1 m0 + at2 m0 * at2 m0 <> 0 ->
  rotation_angle_deg m0 0 = 0.
Proof.
  intro HS. unfold rotation_angle_deg. rewrite cos_0.
  replace (((at0 m0 * at0 m0 + at1 m0 * at1 m0) * 1 + at2 m0 * at2 m0) /
           (at0 m0 * at0 m0 + at1 m0 * at1 m0 + at2 m0 * at2 m0))
    with 1 by (field; exact HS).
  rewrite acos_1. unfold Rdiv. ring.
Qed.

Lemma angles_closed_form (q m0 : vec3 R) (R_max : vec3 Z) :
  at0 m0 * at0 m0 + at1 m0 * at1 m0 + at2 m0 * at2 m0 <> 0 ->
  run_angles q m0 (row_major R_max) =
  map (fun p => rotation_angle_deg m0 (2 * PI * dot_site q p))
      (row_major R_max).
Proof.
  intro HS. destruct (row_major R_max) as [|p0 rest] eqn:E; [reflexivity|].
  apply row_major_head in E. subst p0. simpl. f_equal.
  - unfold dot_site; simpl.
    replace (2 * PI * (at0 q * 0 + at1 q * 0 + at2 q * 0)) with 0 by ring.
    symmetry. now apply rotation_angle_zero_phase.
  - apply map_ext. intro p.
    rewrite site_moment_origin, site_moment_rotate_z.
    now apply site_angle_rotation.
Qed.

(** X5.  Over the reals, for a non-zero initial moment the angle stored for
    a site is arccos(((mx0^2 + my0^2) cos(phase) + mz0^2) / |m0|^2) in
    degrees, with phase = 2 pi (q . p). *)
Theorem angles_follow_phase (A : Type) (a : A) (R_max : vec3 Z)
    (q m0 : vec3 R) :
  at0 m0 * at0 m0 + at1 m0 * at1 m0 + at2 m0 * at2 m0 <> 0 ->
  let r := generate_spiral_structure a R_max q m0 in
  out_angles r =
  map (fun p => rotation_angle_deg m0 (2 * PI * dot_site q p))
      (out_positions r).
Proof.
  intros HS r; subst r. rewrite generate_closed_form.
  unfold out_angles, out_positions; cbn [fst snd].
  now apply angles_closed_form.
Qed.

Lemma Forall2_map_self (X Y : Type) (P : X -> Y -> Prop) (g : X -> Y)
    (l : list X) :
  (forall x, P x (g x)) -> Forall2 P l (map g l).
Proof. intro H. induction l; simpl; constructor; auto. Qed.

Lemma in_plane_angle (m0 : vec3 R) (phase : R) :
  at2 m0 = 0 -> at0 m0 * at0 m0 + at1 m0 * at1 m0 <> 0 ->
  rotation_angle_deg m0 phase = acos (cos phase) * 180 / PI.
Proof.
  intros Hz HP. unfold rotation_angle_deg. rewrite Hz.
  replace (((at0 m0 * at0 m0 + at1 m0 * at1 m0) * cos phase + 0 * 0) /
           (at0 m0 * at0 m0 + at1 m0 * at1 m0 + 0 * 0))
    with (cos phase) by (field; lra).
  reflexivity.
Qed.

(** X6.  For a non-zero initial moment in the x-y plane the stored angle is
    the rotation folded into [0, 180]: 360 (q . p) degrees when q . p lies in
    [0, 1/2], and 360 (1 - q . p) degrees when it lies in [1/2, 1]. *)
Theorem in_plane_angles_are_folded_phase (A : Type) (a : A) (R_max : vec3 Z)
    (q m0 : vec3 R) :
  at2 m0 = 0 -> at0 m0 * at0 m0 + at1 m0 * at1 m0 <> 0 ->
  let r := generate_spiral_structure a R_max q m0 in
  Forall2 (fun p x =>
             (0 <= dot_site q p <= 1 / 2 -> x = 360 * dot_site q p) /\
             (1 / 2 <= dot_site q p <= 1 -> x = 360 * (1 - dot_site q p)))
          (out_positions r) (out_angles r).
Proof.
  intros Hz HP r; subst r. rewrite generate_closed_form.
  unfold out_positions, out_angles; cbn [fst snd].
  rewrite angles_closed_form by (rewrite Hz; lra).
  apply Forall2_map_self. intro p.
  rewrite in_plane_angle by assumption.
  pose proof PI_RGT_0 as Hpi. split; intro Hd.
  - rewrite acos_cos by nra. field. lra.
  - replace (cos (2 * PI * dot_site q p))
      with (cos (2 * PI * (1 - dot_site q p))).
    + rewrite acos_cos by nra. field. lra.
    + rewrite <- (cos_neg (2 * PI * dot_site q p)).
      rewrite <- (cos_period_Z (- (2 * PI * dot_site q p)) 1).
      f_equal. ring.
Qed.

Lemma range_succ (n : Z) : (0 <= n)%Z -> range (n + 1) = range n ++ [n].
Proof.
  intro Hn. unfold range.
  replace (Z.to_nat (n + 1)) with (S (Z.to_nat n)) by lia.
  rewrite seq_S, map_app. simpl. now rewrite Z2Nat.id.
Qed.

Lemma run_angles_app (q m0 : vec3 R) (l l' : list (vec3 Z)) :
  exists t, run_angles q m0 (l ++ l') = run_angles q m0 l ++ t.
Proof.
  destruct l as [|p0 rest]; simpl.
  - eexists. reflexivity.
  - rewrite map_app. eexists. reflexivity.
Qed.

(** X7.  One more layer along x appends to the three lists and changes no
    entry that was there: the result for [Nx] is a prefix of the result for
    [Nx + 1]. *)
Theorem next_layer_extends_result (A : Type) (a : A) (Nx Ny Nz : Z)
    (q m0 : vec3 R) :
  let r := generate_spiral_structure a (Vec3 Nx Ny Nz) q m0 in
  let r' := generate_spiral_structure a (Vec3 (Nx + 1)%Z Ny Nz) q m0 in
  exists tp tm ta,
    out_positions r' = out_positions r ++ tp /\
    out_moments r' = out_moments r ++ tm /\
    out_angles r' = out_angles r ++ ta.
Proof.
  intros r r'; subst r r'. rewrite !generate_closed_form.
  unfold out_positions, out_moments, out_angles; cbn [fst snd].
  destruct (Z_le_gt_dec 0 Nx) as [Hn|Hn].
  - assert (E : exists layer, row_major (Vec3 (Nx + 1)%Z Ny Nz) =
                              row_major (Vec3 Nx Ny Nz) ++ layer).
    { unfold row_major; cbn [at0 at1 at2].
      rewrite (range_succ Hn), flat_map_app. eexists. reflexivity. }
    destruct E as (layer & ->).
    destruct (run_angles_app q m0 (row_major (Vec3 Nx Ny Nz)) layer)
      as (ta & Hta).
    exists layer, (map (site_moment q m0) layer), ta.
    rewrite map_app. now rewrite Hta.
  - assert (E : row_major (Vec3 Nx Ny Nz) = [])
      by (apply row_major_nil_iff; lia).
    rewrite E. simpl. eexists. eexists. eexists.
    repeat split; reflexivity.
Qed.

Lemma site_moment_times (q m0 : vec3 R) (c : R) (p : vec3 Z) :
  site_moment q (times c m0) p = times c (site_moment q m0 p).
Proof. unfold site_moment, times; cbn [at0 at1 at2]. f_equal; ring. Qed.

Lemma times_square_nonzero (m0 : vec3 R) (c : R) :
  c <> 0 ->
  at0 m0 * at0 m0 + at1 m0 * at1 m0 + at2 m0 * at2 m0 <> 0 ->
  c * at0 m0 * (c * at0 m0) + c * at1 m0 * (c * at1 m0) +
  c * at2 m0 * (c * at2 m0) <> 0.
Proof.
  intros Hc HS Hz.
  assert (Hcc : c * c <> 0) by (intro H; apply Rmult_integral in H; tauto).
  assert (H : c * c * (at0 m0 * at0 m0 + at1 m0 * at1 m0 + at2 m0 * at2 m0)
              = 0) by (rewrite <- Hz; ring).
  apply Rmult_integral in H. tauto.
Qed.

Lemma rotation_angle_times (m0 : vec3 R) (c phase : R) :
  c <> 0 ->
  at0 m0 * at0 m0 + at1 m0 * at1 m0 + at2 m0 * at2 m0 <> 0 ->
  rotation_angle_deg (times c m0) phase = rotation_angle_deg m0 phase.
Proof.
  intros Hc HS. unfold rotation_angle_deg, times; cbn [at0 at1 at2].
  f_equal. f_equal. f_equal. field.
  split; [assumption | now apply times_square_nonzero].
Qed.

(** X8.  Multiplying the initial moment by a non-zero factor multiplies
    every stored moment by it and leaves every angle as it was. *)
Theorem angles_ignore_moment_magnitude (A : Type) (a : A) (R_max : vec3 Z)
    (q m0 : vec3 R) (c : R) :
  c <> 0 ->
  let r := generate_spiral_structure a R_max q m0 in
  let r' := generate_spiral_structure a R_max q (times c m0) in
  out_positions r' = out_positions r /\
  out_moments r' = map (times c) (out_moments r) /\
  out_angles r' = out_angles r.
Proof.
  intros Hc r r'; subst r r'. rewrite !generate_closed_form.
  unfold out_positions, out_moments, out_angles; cbn [fst snd].
  split; [reflexivity|]. split.
  - rewrite map_map. apply map_ext. intro p. apply site_moment_times.
  - destruct (Req_dec_T (at0 m0 * at0 m0 + at1 m0 * at1 m0 + at2 m0 * at2 m0)
                        0) as [HS|HS].
    + assert (H0 : at0 m0 = 0) by nra.
      assert (H1 : at1 m0 = 0) by nra.
      assert (H2 : at2 m0 = 0) by nra.
      apply run_angles_ext. intro p.
      unfold site_moment, times; cbn [at0 at1 at2].
      rewrite H0, H1, H2. f_equal; ring.
    + rewrite !angles_closed_form.
      * apply map_ext. intro p. now apply rotation_angle_times.
      * exact HS.
      * unfold times; cbn [at0 at1 at2]. now apply times_square_nonzero.
Qed.

End GeneratorExtras.

(** ** Further properties of the fixed-point conversion *)

Section RoundingExtras.

Import Serializer Spec.
Local Open Scope R_scope.

Lemma round_half_even_error (x : R) :
  Rabs (IZR (round_half_even x) - x) <= 1 / 2.
Proof.
  unfold round_half_even.
  destruct (base_Int_part x) as [Hlo Hhi].
  destruct (Rlt_dec (x - IZR (Int_part x)) (1 / 2)) as [H1|H1].
  - apply Rabs_le. lra.
  - destruct (Rlt_dec (1 / 2) (x - IZR (Int_part x))) as [H2|H2].
    + rewrite plus_IZR. apply Rabs_le. lra.
    + destruct (Z.even (Int_part x)).
      * apply Rabs_le. lra.
      * rewrite plus_IZR. apply Rabs_le. lra.
Qed.

Lemma pow10_pos (prec : nat) : 0 < 10 ^ prec.
Proof. apply pow_lt. lra. Qed.

Lemma written_value_error_bound_helper (prec : nat) (x : R) :
  Rabs (written prec x - x) <= 1 / 2 / 10 ^ prec.
Proof.
  pose proof (pow10_pos prec) as Hp.
  pose proof (round_half_even_error (Rabs x * 10 ^ prec)) as He.
  unfold written, fixed_digits.
  set (d := IZR (round_half_even (Rabs x * 10 ^ prec))) in *.
  assert (Hd : - (1 / 2) <= d - Rabs x * 10 ^ prec <= 1 / 2).
  { split.
    - pose proof (Rle_abs (- (d - Rabs x * 10 ^ prec))) as H.
      rewrite Rabs_Ropp in H. lra.
    - pose proof (Rle_abs (d - Rabs x * 10 ^ prec)) as H. lra. }
  assert (Hq : - (1 / 2 / 10 ^ prec) <= d / 10 ^ prec - Rabs x
               <= 1 / 2 / 10 ^ prec).
  { replace (d / 10 ^ prec - Rabs x)
      with ((d - Rabs x * 10 ^ prec) / 10 ^ prec) by (field; lra).
    unfold Rdiv at 2 4 5.
    pose proof (Rinv_0_lt_compat _ Hp) as Hi.
    split; unfold Rdiv; nra. }
  apply Rabs_le.
  destruct (Rlt_dec x 0) as [Hx|Hx].
  - rewrite Rabs_left in Hq by assumption.
    replace (-1 * d / 10 ^ prec - x) with (- (d / 10 ^ prec - - x))
      by (field; lra).
    lra.
  - rewrite Rabs_right in Hq by lra.
    replace (1 * d / 10 ^ prec - x) with (d / 10 ^ prec - x) by (field; lra).
    lra.
Qed.

(** X9.  The numeral written for [x] with [prec] decimals differs from [x]
    by at most half a unit of its last decimal; for the records that is
    0.00005, for the cell dimensions 0.05. *)
Theorem written_value_error (prec : nat) (x : R) :
  Rabs (written prec x - x) <= 1 / 2 / 10 ^ prec.
Proof. apply written_value_error_bound_helper. Qed.

(** X10.  The numeral written at scale [s] and [s] times the numeral written
    at scale 1 differ by at most (1 + |s|) half units of the last decimal:
    the scale factor holds on the written text up to rounding. *)
Theorem scale_on_written_values_up_to_rounding (prec : nat) (v s : R) :
  Rabs (written prec (v * s) - s * written prec (v * 1))
  <= (1 + Rabs s) * (1 / 2 / 10 ^ prec).
Proof.
  pose proof (written_value_error_bound_helper prec (v * s)) as HA.
  pose proof (written_value_error_bound_helper prec (v * 1)) as HB.
  replace (written prec (v * s) - s * written prec (v * 1))
    with ((written prec (v * s) - v * s)
          + - (s * (written prec (v * 1) - v * 1))) by ring.
  eapply Rle_trans; [apply Rabs_triang|].
  rewrite Rabs_Ropp, Rabs_mult.
  pose proof (Rabs_pos s) as Hs.
  pose proof (Rabs_pos (written prec (v * 1) - v * 1)) as Hb.
  nra.
Qed.

End RoundingExtras.

(** ** The written text, line by line *)

Section TextExtras.

Import Serializer Spec Text.
Local Open Scope string_scope.

Lemma string_app_assoc (a b c : string) : (a ++ b) ++ c = a ++ b ++ c.
Proof. induction a as [|x a IH]; simpl; [reflexivity|]. now rewrite IH. Qed.

Lemma string_app_nil_r (a : string) : a ++ "" = a.
Proof. induction a as [|x a IH]; simpl; [reflexivity|]. now rewrite IH. Qed.

Lemma newline_free_app (a b : string) :
  newline_free (a ++ b) = newline_free a && newline_free b.
Proof.
  induction a as [|x a IH]; simpl; [reflexivity|].
  now rewrite IH, andb_assoc.
Qed.

Lemma newline_free_repeat (c : ascii) (n : nat) :
  Ascii.eqb c (ascii_of_nat 10) = false -> newline_free (repeat_char c n) = true.
Proof. intro Hc. induction n; simpl; [reflexivity|]. now rewrite Hc, IHn. Qed.

Lemma newline_free_uint (d : Decimal.uint) :
  newline_free (NilEmpty.string_of_uint d) = true.
Proof. induction d; simpl; assumption || reflexivity. Qed.

Lemma newline_free_str_of_N (n : N) : newline_free (str_of_N n) = true.
Proof. apply newline_free_uint. Qed.

Lemma newline_free_pad_left (c : ascii) (w : nat) (s : string) :
  Ascii.eqb c (ascii_of_nat 10) = false -> newline_free s = true ->
  newline_free (pad_left c w s) = true.
Proof.
  intros Hc Hs. unfold pad_left.
  now rewrite newline_free_app, newline_free_repeat, Hs.
Qed.

Lemma newline_free_fixed_text (prec : nat) (d : Z) :
  newline_free (fixed_text prec d) = true.
Proof.
  unfold fixed_text. destruct prec as [|prec].
  - apply newline_free_str_of_N.
  - rewrite !newline_free_app, newline_free_str_of_N.
    rewrite newline_free_pad_left by
      (reflexivity || apply newline_free_str_of_N).
    reflexivity.
Qed.

Lemma newline_free_format_f (w prec : nat) (x : R) :
  newline_free (format_f w prec x) = true.
Proof.
  unfold format_f. apply newline_free_pad_left; [reflexivity|].
  destruct (Rlt_dec x 0); [rewrite newline_free_app; simpl|];
    apply newline_free_fixed_text.
Qed.

(** A newline-free text followed by a newline is one line. *)
Lemma lines_from_line (body cur rest : string) :
  newline_free body = true ->
  lines_from cur (body ++ nl ++ rest) = (cur ++ body) :: lines_from "" rest.
Proof.
  revert cur. induction body as [|c body IH]; intros cur Hb.
  - simpl. now rewrite string_app_nil_r.
  - simpl in Hb. apply andb_true_iff in Hb as [Hc Hb].
    apply negb_true_iff in Hc. simpl. rewrite Hc.
    rewrite IH by assumption. now rewrite string_app_assoc.
Qed.

Lemma file_text_cons (w : string) (f : file) :
  file_text (w :: f) = w ++ file_text f.
Proof.
  unfold file_text. destruct f as [|w' f]; simpl.
  - now rewrite string_app_nil_r.
  - reflexivity.
Qed.

Lemma lines_of_line_writes (f : file) :
  Forall is_line f ->
  map (fun l => l ++ nl) (lines (file_text f)) = f.
Proof.
  unfold lines. induction 1 as [|w f (body & -> & Hb) _ IH].
  - reflexivity.
  - rewrite file_text_cons, string_app_assoc, lines_from_line by assumption.
    simpl. now rewrite IH.
Qed.

Lemma is_line_intro (body : string) :
  newline_free body = true -> is_line (body ++ nl).
Proof. intro H. now exists body. Qed.

Lemma is_line_app2 (a b : string) :
  newline_free a = true -> newline_free b = true -> is_line (a ++ b ++ nl).
Proof.
  intros Ha Hb. exists (a ++ b). split.
  - now rewrite string_app_assoc.
  - now rewrite newline_free_app, Ha, Hb.
Qed.

Lemma is_line_app3 (a b c : string) :
  newline_free a = true -> newline_free b = true -> newline_free c = true ->
  is_line (a ++ b ++ c ++ nl).
Proof.
  intros Ha Hb Hc. exists (a ++ b ++ c). split.
  - now rewrite !string_app_assoc.
  - now rewrite !newline_free_app, Ha, Hb, Hc.
Qed.

Lemma record_line_is_line (p m : vec3 R) : is_line (record_line p m).
Proof.
  exists ("26  " ++ format_f 8 4 (at0 p) ++ "  " ++ format_f 8 4 (at1 p)
          ++ "  " ++ format_f 8 4 (at2 p) ++ "  " ++ format_f 8 4 (at0 m)
          ++ "  " ++ format_f 8 4 (at1 m) ++ "  " ++ format_f 8 4 (at2 m)).
  split.
  - unfold record_line. now rewrite !string_app_assoc.
  - rewrite !newline_free_app, !newline_free_format_f. reflexivity.
Qed.

(** X11.  Every write of [create_xsf_file] is exactly one line of the file:
    splitting the file's text at the newlines and putting the newlines back
    gives the sequence of writes. *)
Theorem file_lines_are_the_writes (positions moments : list (vec3 R))
    (R_max : vec3 Z) (scale : R) :
  map (fun l => l ++ nl)
      (lines (file_text (create_xsf_file positions moments R_max scale)))
  = create_xsf_file positions moments R_max scale.
Proof.
  apply lines_of_line_writes. rewrite create_xsf_file_render. unfold render.
  do 4 (apply Forall_cons; [apply is_line_intro; reflexivity|]).
  apply Forall_cons;
    [apply is_line_app2; [apply newline_free_format_f | reflexivity]|].
  apply Forall_cons;
    [apply is_line_app3;
       [reflexivity | apply newline_free_format_f | reflexivity]|].
  apply Forall_cons;
    [apply is_line_app2; [reflexivity | apply newline_free_format_f]|].
  apply Forall_cons; [apply is_line_intro; reflexivity|].
  apply Forall_cons;
    [apply is_line_app2; [apply newline_free_str_of_N | reflexivity]|].
  apply Forall_app. split.
  - apply Forall_forall. intros w Hw.
    apply in_map_iff in Hw as ([p m] & <- & _). apply record_line_is_line.
  - constructor; [|constructor]. now exists "".
Qed.

End TextExtras.

(** ** The reporter, and the generator composed with its two consumers *)

Section ConsumerExtras.

Import Generator Serializer Reporter Spec Loop Text.
Local Open Scope string_scope.

Lemma fold_left_print (X : Type) (g : X -> string) (l : list X)
    (out : console) :
  fold_left (fun out x => print out (g x)) l out
  = List.app out (map (fun x => g x ++ nl) l).
Proof.
  revert out; induction l as [|x l IH]; intro out; simpl.
  - now rewrite app_nil_r.
  - rewrite IH. unfold print. now rewrite <- app_assoc.
Qed.

Lemma print_structure_info_shape (positions : list (vec3 Z))
    (moments : list (vec3 R)) (angles : list R) :
  print_structure_info positions moments angles =
  List.app
    [ "Generated " ++ str_of_nat (length positions) ++ " atomic positions"
        ++ nl;
      nl ++ "Position (i,j,k) | Magnetic Moment (mx,my,mz) | Angle (deg)"
        ++ nl;
      repeat_char "-"%char 65 ++ nl ]
    (map (fun pma => row (fst pma) (fst (snd pma)) (snd (snd pma)) ++ nl)
         (combine positions (combine moments angles))).
Proof.
  unfold print_structure_info.
  rewrite (fold_left_print
             (fun pma => row (fst pma) (fst (snd pma)) (snd (snd pma)))).
  unfold print. simpl app.
  now rewrite !string_app_assoc.
Qed.

(** X12.  [print_structure_info] prints three heading texts and then one
    row per triple of the zip of its three lists, in order, so the number of
    rows is the least of the three lengths, while the first text states
    [len(positions)]. *)
Theorem report_rows_follow_zip (positions : list (vec3 Z))
    (moments : list (vec3 R)) (angles : list R) :
  let out := print_structure_info positions moments angles in
  nth 0 out "" =
    "Generated " ++ str_of_nat (length positions) ++ " atomic positions"
      ++ nl /\
  skipn 3 out =
    map (fun pma => row (fst pma) (fst (snd pma)) (snd (snd pma)) ++ nl)
        (combine positions (combine moments angles)) /\
  length (skipn 3 out) =
    Nat.min (length positions) (Nat.min (length moments) (length angles)).
Proof.
  intro out; subst out. rewrite print_structure_info_shape.
  cbn [nth app skipn].
  split; [reflexivity|]. split; [reflexivity|].
  now rewrite length_map, !length_combine.
Qed.

Lemma data_records_create (positions moments : list (vec3 R))
    (R_max : vec3 Z) (scale : R) :
  data_records (create_xsf_file positions moments R_max scale) =
  map (fun pm => record_line (scaled (fst pm) scale) (scaled (snd pm) scale))
      (combine positions moments).
Proof.
  rewrite create_xsf_file_render. unfold render, data_records, site_values.
  cbn [app skipn]. now rewrite removelast_last, map_map.
Qed.

Lemma count_line_create (positions moments : list (vec3 R))
    (R_max : vec3 Z) (scale : R) :
  nth 8 (create_xsf_file positions moments R_max scale) "" =
  str_of_nat (length positions) ++ " 1" ++ nl.
Proof. rewrite create_xsf_file_render. reflexivity. Qed.

Lemma combine_map_same (X Y Z' : Type) (f : X -> Y) (g : X -> Z')
    (l : list X) :
  combine (map f l) (map g l) = map (fun x => (f x, g x)) l.
Proof. induction l; simpl; [reflexivity|]. now rewrite IHl. Qed.

(** X13.  Whatever the generator returns is reported and written in full:
    for every extents triple, wave vector and initial moment, the rows
    printed and the records written number the generated sites, the count
    line of the file states that number, and the record of a site shows the
    site times [scale] and its own rotated moment times [scale]. *)
Theorem generated_structure_is_written_in_full (A : Type) (a : A)
    (R_max cell : vec3 Z) (q m0 : vec3 R) (scale : R) :
  let r := generate_spiral_structure a R_max q m0 in
  let out := print_structure_info (out_positions r) (out_moments r)
                                  (out_angles r) in
  let f := create_xsf_file (map as_reals (out_positions r)) (out_moments r)
                           cell scale in
  length (skipn 3 out) = length (out_positions r) /\
  length (data_records f) = length (out_positions r) /\
  nth 8 f "" = str_of_nat (length (data_records f)) ++ " 1" ++ nl /\
  data_records f =
    map (fun p => record_line (scaled (as_reals p) scale)
                              (scaled (rotate_z m0 (spec_phase q p)) scale))
        (out_positions r).
Proof.
  intros r out f; subst r out f.
  rewrite print_structure_info_shape, data_records_create, count_line_create.
  rewrite generate_closed_form.
  unfold out_positions, out_moments, out_angles; cbn [fst snd app skipn].
  rewrite !length_map, !length_combine, !length_map, length_run_angles.
  rewrite combine_map_same, map_map. cbn [fst snd].
  split; [lia|]. split; [lia|]. split; [now rewrite Nat.min_id|].
  apply map_ext. intro p. now rewrite site_moment_rotate_z.
Qed.

End ConsumerExtras.

(** ** The driver's configuration *)

Section DriverExtras.

Import Generator Serializer Reporter Spec Loop Text Driver.
Local Open Scope R_scope.

Lemma half_literal : 0.5 = 1 / 2.
Proof. unfold Q2R; simpl. lra. Qed.

Lemma spiral_vector_dot (n : Z) (p : vec3 Z) :
  (0 < n)%Z ->
  dot_site (spiral_vector n) p =
  IZR (n - 1) * IZR (at1 p + at2 p) / (2 * IZR n).
Proof.
  intro Hn. assert (0 < IZR n) by now apply IZR_lt.
  unfold dot_site, spiral_vector; cbn [at0 at1 at2].
  rewrite half_literal, minus_IZR, plus_IZR. field. lra.
Qed.

(** X14.  In the driver's configuration, for every positive
    [atoms_in_spiral], two sites carry the same moment whenever
    [atoms_in_spiral - 1] times the difference of their [j + k] is a multiple
    of [2 * atoms_in_spiral]; the moment does not depend on [i].  For
    [atoms_in_spiral = 3] the pattern repeats every 3 steps of [j + k]. *)
Theorem driver_moments_repeat (n : Z) (i j : nat) (p p' : vec3 Z) (t : Z) :
  (0 < n)%Z ->
  let r := fst (fst (main_with n)) in
  nth_error (out_positions r) i = Some p ->
  nth_error (out_positions r) j = Some p' ->
  ((n - 1) * ((at1 p' + at2 p') - (at1 p + at2 p)) = 2 * n * t)%Z ->
  nth_error (out_moments r) j = nth_error (out_moments r) i.
Proof.
  intros Hn r Hi Hj Ht. subst r. unfold main_with in *. cbn [fst] in *.
  rewrite generate_closed_form in *.
  unfold out_positions, out_moments in *; cbn [fst snd] in *.
  rewrite !nth_error_map, Hi, Hj. simpl. f_equal.
  apply site_moment_whole_turns with (n := t).
  rewrite !spiral_vector_dot by assumption.
  assert (0 < IZR n) by now apply IZR_lt.
  apply (f_equal IZR) in Ht.
  rewrite !mult_IZR, !minus_IZR, !plus_IZR in Ht.
  rewrite !minus_IZR, !plus_IZR.
  apply Rmult_eq_reg_r with (2 * IZR n); [|lra].
  replace (IZR t * (2 * IZR n)) with (2 * IZR n * IZR t) by ring.
  rewrite <- Ht. field. lra.
Qed.

(** X15.  For every positive [atoms_in_spiral] the driver generates
    [4 * atoms_in_spiral^3] sites, prints one row for each and writes one
    record for each, and the count line of the file states that number. *)
Theorem driver_counts (n : Z) :
  (0 < n)%Z ->
  let r := fst (fst (main_with n)) in
  let out := snd (fst (main_with n)) in
  let f := snd (main_with n) in
  length (out_positions r) = Z.to_nat (4 * n * n * n) /\
  length (skipn 3 out) = Z.to_nat (4 * n * n * n) /\
  length (data_records f) = Z.to_nat (4 * n * n * n) /\
  nth 8 f EmptyString =
    (str_of_nat (Z.to_nat (4 * n * n * n)) ++ " 1" ++ nl)%string.
Proof.
  intros Hn r out f; subst r out f. unfold main_with; cbn [fst snd].
  assert (Hlen : length (fst (fst (generate_spiral_structure n (supercell n)
                                     (spiral_vector n) (Vec3 1 0 0))))
                 = Z.to_nat (4 * n * n * n)).
  { rewrite generate_closed_form. cbn [fst]. unfold supercell.
    rewrite length_row_major.
    rewrite <- !Z2Nat.inj_mul by lia. f_equal. ring. }
  split; [exact Hlen|].
  rewrite print_structure_info_shape, data_records_create, count_line_create.
  cbn [app skipn].
  rewrite !length_map, !length_combine, !length_map, Hlen.
  rewrite generate_closed_form; cbn [fst snd]. unfold supercell.
  rewrite !length_map, length_run_angles, length_row_major.
  assert (E : (Z.to_nat n * (Z.to_nat (n * 2) * Z.to_nat (n * 2)))%nat
              = Z.to_nat (4 * n * n * n)).
  { rewrite <- !Z2Nat.inj_mul by lia. f_equal. ring. }
  rewrite E. repeat split; lia.
Qed.

End DriverExtras.

(** ** Flat indices, handedness, and the cell argument *)

Section MoreExtras.

Import Generator Serializer Spec Loop Text.
Local Open Scope R_scope.

(** X16.  The site stored at a flat index [t] below [Nx * Ny * Nz] is
    [(t / (Ny * Nz), (t / Nz) mod Ny, t mod Nz)]: the inverse of the
    row-major index. *)
Theorem site_at_flat_index (A : Type) (a : A) (Nx Ny Nz : Z) (q m0 : vec3 R)
    (t : Z) :
  (0 <= t < Nx * Ny * Nz)%Z -> (0 < Ny)%Z -> (0 < Nz)%Z ->
  nth_error
    (out_positions (generate_spiral_structure a (Vec3 Nx Ny Nz) q m0))
    (Z.to_nat t)
  = Some (Vec3 (t / (Ny * Nz)) ((t / Nz) mod Ny) (t mod Nz))%Z.
Proof.
  intros Ht Hy Hz. rewrite generate_closed_form.
  unfold out_positions; cbn [fst].
  assert (Hyz : (0 < Ny * Nz)%Z) by nia.
  assert (Hdecomp : (t / (Ny * Nz) * (Ny * Nz) + (t / Nz) mod Ny * Nz
                     + t mod Nz = t)%Z).
  { pose proof (Z.div_mod t Nz ltac:(lia)) as H1.
    pose proof (Z.div_mod (t / Nz) Ny ltac:(lia)) as H2.
    rewrite Z.div_div in H2 by lia.
    rewrite (Z.mul_comm Nz Ny) in H2. nia. }
  rewrite <- Hdecomp at 1.
  apply nth_error_row_major.
  - split; [apply Z.div_pos; lia|].
    apply Z.div_lt_upper_bound; [lia|]. nia.
  - apply Z.mod_pos_bound; lia.
  - apply Z.mod_pos_bound; lia.
Qed.

Lemma zero_moment_components (m0 : vec3 R) :
  at0 m0 * at0 m0 + at1 m0 * at1 m0 + at2 m0 * at2 m0 = 0 ->
  m0 = Vec3 0 0 0.
Proof.
  intro HS. destruct m0 as [x y z]; cbn [at0 at1 at2] in HS.
  assert (x = 0) by nra. assert (y = 0) by nra. assert (z = 0) by nra.
  now subst.
Qed.

Lemma dot_site_opp (q : vec3 R) (p : vec3 Z) :
  dot_site (Vec3 (- at0 q) (- at1 q) (- at2 q)) p = - dot_site q p.
Proof. unfold dot_site; cbn [at0 at1 at2]. ring. Qed.

(** X17.  The angles do not tell a spiral from its mirror image: the wave
    vectors [q] and [-q] give the same positions and the same angles. *)
Theorem angles_ignore_handedness (A : Type) (a : A) (R_max : vec3 Z)
    (q m0 : vec3 R) :
  let r := generate_spiral_structure a R_max q m0 in
  let r' := generate_spiral_structure a R_max
              (Vec3 (- at0 q) (- at1 q) (- at2 q)) m0 in
  out_positions r' = out_positions r /\ out_angles r' = out_angles r.
Proof.
  intros r r'; subst r r'. rewrite !generate_closed_form.
  unfold out_positions, out_angles; cbn [fst snd].
  split; [reflexivity|].
  destruct (Req_dec_T (at0 m0 * at0 m0 + at1 m0 * at1 m0 + at2 m0 * at2 m0) 0)
    as [HS|HS].
  - apply zero_moment_components in HS. subst m0.
    apply run_angles_ext. intro p. now rewrite !site_moment_zero_m0.
  - rewrite !angles_closed_form by assumption.
    apply map_ext. intro p. unfold rotation_angle_deg.
    rewrite dot_site_opp.
    replace (2 * PI * - dot_site q p) with (- (2 * PI * dot_site q p)) by ring.
    now rewrite cos_neg.
Qed.

End MoreExtras.

(** ** Instances of the further conditional statements *)

Section MoreInstances.

Import Generator Serializer Reporter Spec Loop Text Driver.
Local Open Scope R_scope.

Lemma first_site_is_reference_witness :
  (0 < 2)%Z /\ (0 < 1)%Z /\ (0 < 1)%Z /\
  nth_error (out_moments
               (generate_spiral_structure tt (Vec3 2 1 1)%Z
                  (Vec3 0 (1 / 3) (1 / 3)) (Vec3 1 2 3))) 0
  = Some (Vec3 1 2 3).
Proof.
  pose proof (@first_site_is_reference unit tt 2 1 1
                (Vec3 0 (1 / 3) (1 / 3)) (Vec3 1 2 3)
                ltac:(lia) ltac:(lia) ltac:(lia)) as H.
  cbv zeta in H. destruct H as (_ & Hm & _).
  split; [lia|]. split; [lia|]. split; [lia|]. exact Hm.
Defined.

Lemma moments_repeat_after_whole_turns_witness :
  dot_site (Vec3 0 0 (1 / 2)) (Vec3 0 0 2)%Z
  - dot_site (Vec3 0 0 (1 / 2)) (Vec3 0 0 0)%Z = IZR 1 /\
  nth_error (out_moments
               (generate_spiral_structure tt (Vec3 1 1 4)%Z
                  (Vec3 0 0 (1 / 2)) (Vec3 1 0 0))) 2
  = nth_error (out_moments
                 (generate_spiral_structure tt (Vec3 1 1 4)%Z
                    (Vec3 0 0 (1 / 2)) (Vec3 1 0 0))) 0.
Proof.
  assert (Hd : dot_site (Vec3 0 0 (1 / 2)) (Vec3 0 0 2)%Z
               - dot_site (Vec3 0 0 (1 / 2)) (Vec3 0 0 0)%Z = IZR 1)
    by (unfold dot_site; simpl; lra).
  split; [exact Hd|].
  pose proof (@moments_repeat_after_whole_turns unit tt (Vec3 1 1 4)%Z
                (Vec3 0 0 (1 / 2)) (Vec3 1 0 0) 0%nat 2%nat
                (Vec3 0 0 0)%Z (Vec3 0 0 2)%Z 1%Z) as H.
  cbv zeta in H. apply H.
  - rewrite generate_closed_form. reflexivity.
  - rewrite generate_closed_form. reflexivity.
  - exact Hd.
Defined.

Lemma integer_shift_of_wave_vector_witness :
  generate_spiral_structure tt (Vec3 2 2 2)%Z (Vec3 1 (1 / 3 + 2) (-1))
                            (Vec3 1 0 0)
  = generate_spiral_structure tt (Vec3 2 2 2)%Z (Vec3 0 (1 / 3) 0)
                              (Vec3 1 0 0).
Proof.
  apply (@integer_shift_of_wave_vector unit tt (Vec3 2 2 2)%Z
           (Vec3 0 (1 / 3) 0) (Vec3 1 (1 / 3 + 2) (-1)) (Vec3 1 0 0)
           1%Z 2%Z (-1)%Z); simpl; lra.
Defined.

Lemma angles_follow_phase_witness :
  1 * 1 + 0 * 0 + 0 * 0 <> 0 /\
  out_angles (generate_spiral_structure tt (Vec3 1 2 2)%Z
                (Vec3 0 (1 / 3) (1 / 3)) (Vec3 1 0 0))
  = map (fun p => rotation_angle_deg (Vec3 1 0 0)
                    (2 * PI * dot_site (Vec3 0 (1 / 3) (1 / 3)) p))
        (out_positions (generate_spiral_structure tt (Vec3 1 2 2)%Z
                          (Vec3 0 (1 / 3) (1 / 3)) (Vec3 1 0 0))).
Proof.
  assert (H1 : 1 * 1 + 0 * 0 + 0 * 0 <> 0) by lra.
  split; [exact H1|].
  exact (@angles_follow_phase unit tt (Vec3 1 2 2)%Z
           (Vec3 0 (1 / 3) (1 / 3)) (Vec3 1 0 0) H1).
Defined.

Lemma in_plane_angles_are_folded_phase_witness :
  Forall2 (fun p x =>
             (0 <= dot_site (Vec3 0 (1 / 3) (1 / 3)) p <= 1 / 2 ->
              x = 360 * dot_site (Vec3 0 (1 / 3) (1 / 3)) p) /\
             (1 / 2 <= dot_site (Vec3 0 (1 / 3) (1 / 3)) p <= 1 ->
              x = 360 * (1 - dot_site (Vec3 0 (1 / 3) (1 / 3)) p)))
          (out_positions (generate_spiral_structure tt (Vec3 1 2 2)%Z
                            (Vec3 0 (1 / 3) (1 / 3)) (Vec3 1 0 0)))
          (out_angles (generate_spiral_structure tt (Vec3 1 2 2)%Z
                         (Vec3 0 (1 / 3) (1 / 3)) (Vec3 1 0 0))).
Proof.
  apply (@in_plane_angles_are_folded_phase unit tt (Vec3 1 2 2)%Z
           (Vec3 0 (1 / 3) (1 / 3)) (Vec3 1 0 0)); simpl; [reflexivity | lra].
Defined.

Lemma angles_ignore_moment_magnitude_witness :
  2 <> 0 /\
  out_angles (generate_spiral_structure tt (Vec3 1 2 2)%Z
                (Vec3 0 (1 / 3) (1 / 3)) (times 2 (Vec3 1 0 1)))
  = out_angles (generate_spiral_structure tt (Vec3 1 2 2)%Z
                  (Vec3 0 (1 / 3) (1 / 3)) (Vec3 1 0 1)).
Proof.
  assert (H2 : 2 <> 0) by lra.
  split; [exact H2|].
  pose proof (@angles_ignore_moment_magnitude unit tt (Vec3 1 2 2)%Z
                (Vec3 0 (1 / 3) (1 / 3)) (Vec3 1 0 1) 2 H2) as H.
  cbv zeta in H. destruct H as (_ & _ & Ha). exact Ha.
Defined.

Lemma driver_moments_repeat_witness :
  (0 < 3)%Z /\
  nth_error (out_moments (fst (fst main))) 3
  = nth_error (out_moments (fst (fst main))) 0.
Proof.
  split; [lia|].
  pose proof (@driver_moments_repeat 3 0%nat 3%nat (Vec3 0 0 0)%Z
                (Vec3 0 0 3)%Z 1%Z ltac:(lia)) as H.
  cbv zeta in H. apply H.
  - unfold main_with; cbn [fst]. rewrite generate_closed_form. reflexivity.
  - unfold main_with; cbn [fst]. rewrite generate_closed_form. reflexivity.
  - reflexivity.
Defined.

Lemma driver_counts_witness :
  (0 < 3)%Z /\
  length (out_positions (fst (fst main))) = 108%nat /\
  length (data_records (snd main)) = 108%nat /\
  nth 8 (snd main) EmptyString = ("108 1" ++ nl)%string.
Proof.
  pose proof (@driver_counts 3 ltac:(lia)) as H.
  cbv zeta in H. destruct H as (Hp & _ & Hr & Hc).
  split; [lia|]. split; [exact Hp|]. split; [exact Hr|]. exact Hc.
Defined.

Lemma site_at_flat_index_witness :
  (0 <= 9 < 2 * 3 * 2)%Z /\ (0 < 3)%Z /\ (0 < 2)%Z /\
  nth_error (out_positions
               (generate_spiral_structure tt (Vec3 2 3 2)%Z
                  (Vec3 0 (1 / 3) (1 / 3)) (Vec3 1 0 0))) 9
  = Some (Vec3 1 1 1)%Z.
Proof.
  split; [lia|]. split; [lia|]. split; [lia|].
  exact (@site_at_flat_index unit tt 2 3 2 (Vec3 0 (1 / 3) (1 / 3))
           (Vec3 1 0 0) 9 ltac:(lia) ltac:(lia) ltac:(lia)).
Defined.

End MoreInstances.

(** ** The console text, and a moment along the rotation axis *)

Section LastExtras.

Import Generator Serializer Reporter Spec Loop Text.

Lemma lines_of_bodies (bodies : list string) :
  Forall (fun b => newline_free b = true) bodies ->
  lines (file_text (map (fun b => (b ++ nl)%string) bodies)) = bodies.
Proof.
  unfold lines. induction 1 as [|b bodies Hb _ IH]; [reflexivity|].
  cbn [map]. rewrite file_text_cons, string_app_assoc.
  rewrite lines_from_line by assumption. simpl. now rewrite IH.
Qed.

Lemma newline_free_format_d (w : nat) (n : Z) :
  newline_free (format_d w n) = true.
Proof.
  unfold format_d. apply newline_free_pad_left; [reflexivity|].
  destruct (n <? 0)%Z; [rewrite newline_free_app; simpl|];
    apply newline_free_str_of_N.
Qed.

Lemma newline_free_row (pos : vec3 Z) (mom : vec3 R) (angle : R) :
  newline_free (row pos mom angle) = true.
Proof.
  unfold row.
  rewrite !newline_free_app, !newline_free_format_d, !newline_free_format_f.
  reflexivity.
Qed.

(** X18.  What [print_structure_info] sends to standard output, line by
    line: the count, an empty line (the second text starts with a newline),
    the column heading, a rule of 65 dashes, then one line per row. *)
Theorem console_lines (positions : list (vec3 Z)) (moments : list (vec3 R))
    (angles : list R) :
  lines (console_text (print_structure_info positions moments angles)) =
  ("Generated " ++ str_of_nat (length positions) ++ " atomic positions")%string
  :: EmptyString
  :: "Position (i,j,k) | Magnetic Moment (mx,my,mz) | Angle (deg)"%string
  :: repeat_char "-"%char 65
  :: map (fun pma => row (fst pma) (fst (snd pma)) (snd (snd pma)))
         (combine positions (combine moments angles)).
Proof.
  set (rows := map (fun pma => row (fst pma) (fst (snd pma)) (snd (snd pma)))
                   (combine positions (combine moments angles))).
  set (bodies :=
         ("Generated " ++ str_of_nat (length positions)
            ++ " atomic positions")%string
         :: EmptyString
         :: "Position (i,j,k) | Magnetic Moment (mx,my,mz) | Angle (deg)"%string
         :: repeat_char "-"%char 65 :: rows).
  assert (Htext : console_text
                    (print_structure_info positions moments angles)
                  = file_text (map (fun b => (b ++ nl)%string) bodies)).
  { rewrite print_structure_info_shape. unfold console_text, bodies, rows.
    change (String.concat "") with file_text.
    cbn [map app]. rewrite !file_text_cons, map_map.
    now rewrite !string_app_assoc. }
  rewrite Htext. apply lines_of_bodies.
  unfold bodies. constructor.
  - unfold str_of_nat.
    rewrite !newline_free_app, newline_free_str_of_N. reflexivity.
  - constructor; [reflexivity|]. constructor; [reflexivity|].
    constructor; [reflexivity|].
    unfold rows. apply Forall_forall. intros b Hb.
    apply in_map_iff in Hb as (pma & <- & _). apply newline_free_row.
Qed.

Local Open Scope R_scope.

Lemma site_moment_on_axis (q m0 : vec3 R) (p : vec3 Z) :
  at0 m0 = 0 -> at1 m0 = 0 -> site_moment q m0 p = m0.
Proof.
  intros H0 H1. unfold site_moment. destruct m0 as [x y z].
  cbn [at0 at1 at2] in *. subst. f_equal; ring.
Qed.

(** X19.  An initial moment along the z axis is not rotated: for every wave
    vector every stored moment is the initial moment and every angle is 0. *)
Theorem moment_on_rotation_axis_is_fixed (A : Type) (a : A) (R_max : vec3 Z)
    (q m0 : vec3 R) :
  at0 m0 = 0 -> at1 m0 = 0 ->
  let r := generate_spiral_structure a R_max q m0 in
  out_moments r = repeat m0 (length (out_positions r)) /\
  out_angles r = repeat 0 (length (out_positions r)).
Proof.
  intros H0 H1 r; subst r. rewrite generate_closed_form.
  unfold out_positions, out_moments, out_angles; cbn [fst snd]. split.
  - apply map_constant. intro p. now apply site_moment_on_axis.
  - apply run_angles_constant_moment. intro p. now apply site_moment_on_axis.
Qed.

Lemma moment_on_rotation_axis_is_fixed_witness :
  out_angles (generate_spiral_structure tt (Vec3 1 1 3)%Z
                (Vec3 0 (1 / 3) (1 / 3)) (Vec3 0 0 2))
  = [0; 0; 0].
Proof.
  pose proof (@moment_on_rotation_axis_is_fixed unit tt (Vec3 1 1 3)%Z
                (Vec3 0 (1 / 3) (1 / 3)) (Vec3 0 0 2) eq_refl eq_refl) as H.
  cbv zeta in H. destruct H as (_ & Ha).
  rewrite Ha. rewrite generate_closed_form. reflexivity.
Defined.

End LastExtras.

(** ** The zero wave vector in binary64 *)

Section Binary64Facts.

Import PrimFloat.
Local Open Scope R_scope.

(** The arccos of the double just below 1 that [2 / (sqrt 2 * sqrt 2)]
    rounds to, in degrees: more than 9e-7. *)
Lemma acos_near_one_lower_bound :
  9 / 10 ^ 7 < acos (9007199254740990 / 9007199254740992) * 180 / PI.
Proof.
  set (v := 9007199254740990 / 9007199254740992).
  assert (Hv : -1 < v < 1) by (unfold v; lra).
  pose proof (acos_bound_lt v Hv) as [Ha0 HaPI].
  pose proof (cos_acos v ltac:(lra)) as Hcos.
  set (a := acos v) in *.
  pose proof PI_RGT_0 as Hpi. pose proof PI_4 as Hpi4.
  assert (Hhalf : a <= PI / 2).
  { destruct (Rle_dec a (PI / 2)) as [H|H]; [exact H|].
    assert (cos a < 0) by (apply cos_lt_0; lra).
    unfold v in *. lra. }
  destruct (cos_bound a 0 ltac:(lra) Hhalf) as [Hlow _].
  unfold cos_approx, cos_term in Hlow. simpl in Hlow.
  assert (Hsq : 4 / 9007199254740992 <= a * a) by (unfold v in *; lra).
  assert (Ha : 2 / 10 ^ 8 < a).
  { destruct (Rlt_dec (2 / 10 ^ 8) a) as [H|H]; [exact H|].
    assert (a * a <= 2 / 10 ^ 8 * (2 / 10 ^ 8)) by nra.
    simpl in *. lra. }
  apply Rlt_le_trans with (a * 180 / 4).
  - simpl in *. lra.
  - unfold Rdiv. apply Rmult_le_compat_l; [lra|].
    apply Rinv_le_contravar; lra.
Qed.

(** C4, as stated, fails in binary64.  With q = (0, 0, 0) and
    m0 = (1, 1, 0) the phase of the second site (0, 0, 1) is 0.0 and its
    moment is m0, but the squared magnitude 2 is not the square of its
    rounded root: the cosine handed to [np.arccos] is the double
    0.9999999999999998, that is (2^53 - 2) / 2^53, and the arccos of that
    number is more than 9e-7 degrees, not 0.0. *)
Lemma zero_wave_vector_binary64_counterexample :
  Binary64.phase (Vec3 0 0 0)%float 0%float 0%float 1%float = 0%float /\
  Binary64.moment_at_phase_zero (Vec3 1 1 0)%float = (Vec3 1 1 0)%float /\
  Binary64.cos_angle (Vec3 1 1 0)%float (Vec3 1 1 0)%float
    = Some 0x1.ffffffffffffep-1%float /\
  Binary64.value 0x1.ffffffffffffep-1%float
    = Some (9007199254740990 / 9007199254740992) /\
  9 / 10 ^ 7 < acos (9007199254740990 / 9007199254740992) * 180 / PI.
Proof.
  split; [vm_compute; reflexivity|].
  split; [vm_compute; reflexivity|].
  split; [vm_compute; reflexivity|].
  split; [|apply acos_near_one_lower_bound].
  unfold Binary64.value.
  replace (FloatOps.Prim2SF 0x1.ffffffffffffep-1%float)
    with (SpecFloat.S754_finite false 9007199254740990 (-53))
    by (vm_compute; reflexivity).
  reflexivity.
Qed.

(** For m0 = (1, 0, 0) the same computation gives the cosine 1.0 exactly. *)
Lemma unit_moment_cosine_binary64 :
  Binary64.moment_at_phase_zero (Vec3 1 0 0)%float = (Vec3 1 0 0)%float /\
  Binary64.cos_angle (Vec3 1 0 0)%float (Vec3 1 0 0)%float = Some 1%float.
Proof. split; vm_compute; reflexivity. Qed.

End Binary64Facts.
